(** * NCUA data processor: schema resolution and bulk loading

    A shallow embedding of the schema and loading logic of the repository:

    - [create_ncua_tables.py]: the type catalogue built from the description
      files ([_load_column_types_from_file], [load_column_type_definitions])
      and the catalogue-driven resolver ([get_sql_type_for_column],
      [create_table_from_dataframe]);
    - [processor.py]: the extract-driven resolver ([_generate_schema]) and
      the part of [_process_file] that guards, resolves and loads;
    - [database.py]: the chunked, retrying bulk insert ([insert_data]).

    Python text is modelled by [string] restricted to ASCII, Python [int] by
    [Z] (counters that only count up from zero by [nat]), [dict] by stdpp's
    [gmap], exceptions by a result type, and the remote store by an oracle
    that answers the k-th POST request. *)

From Stdlib Require Import ZArith Ascii String List Lia Bool.
From stdpp Require Import gmap strings pretty.

Local Open Scope Z_scope.

(** ** Python string methods used by the scripts *)
Module PyStr.

Definition code (c : ascii) : nat := nat_of_ascii c.

Definition between (lo hi : nat) (c : ascii) : bool :=
  (Nat.leb lo (code c)) && (Nat.leb (code c) hi).

(** [str.lower] / [str.upper] on ASCII text. *)
Definition lower_char (c : ascii) : ascii :=
  if between 65 90 c then ascii_of_nat (code c + 32) else c.

Definition upper_char (c : ascii) : ascii :=
  if between 97 122 c then ascii_of_nat (code c - 32) else c.

Fixpoint map_chars (f : ascii -> ascii) (s : string) : string :=
  match s with
  | EmptyString => EmptyString
  | String c s' => String (f c) (map_chars f s')
  end.

Definition lower : string -> string := map_chars lower_char.
Definition upper : string -> string := map_chars upper_char.

(** [str.replace(old, new)] for one-character [old] and [new], the only
    form the scripts use. *)
Definition replace_char (old new : ascii) : string -> string :=
  map_chars (fun c => if Ascii.eqb c old then new else c).

(** ASCII characters for which [str.isspace] holds. *)
Definition is_space (c : ascii) : bool :=
  between 9 13 c || between 28 32 c.

Fixpoint lstrip_by (p : ascii -> bool) (s : string) : string :=
  match s with
  | EmptyString => EmptyString
  | String c s' => if p c then lstrip_by p s' else s
  end.

Fixpoint rstrip_by (p : ascii -> bool) (s : string) : string :=
  match s with
  | EmptyString => EmptyString
  | String c s' =>
      match rstrip_by p s' with
      | EmptyString => if p c then EmptyString else String c EmptyString
      | r => String c r
      end
  end.

Definition strip_by (p : ascii -> bool) (s : string) : string :=
  rstrip_by p (lstrip_by p s).

(** [s.strip()], and [s.strip(q)] for [q] the double-quote character
    (code 34). *)
Definition strip : string -> string := strip_by is_space.
Definition strip_quote : string -> string :=
  strip_by (fun c => Ascii.eqb c (ascii_of_nat 34)).

(** [needle in hay]. *)
Fixpoint contains (needle hay : string) : bool :=
  String.prefix needle hay ||
  match hay with
  | EmptyString => false
  | String _ hay' => contains needle hay'
  end.

(** [", ".join(parts)]. *)
Fixpoint join (sep : string) (parts : list string) : string :=
  match parts with
  | [] => ""
  | [p] => p
  | p :: rest => p +:+ sep +:+ join sep rest
  end.

(** [str(n)] for a Python [int]. *)
Definition str_nat (n : nat) : string := pretty n.
Definition str_Z (z : Z) : string := pretty z.

End PyStr.

(** ** SQL types and pandas dtypes *)

Inductive SqlType := INTEGER | SMALLINT | BIGINT | NUMERIC | TIMESTAMP | TEXT.

Definition sql_name (t : SqlType) : string :=
  match t with
  | INTEGER => "INTEGER" | SMALLINT => "SMALLINT" | BIGINT => "BIGINT"
  | NUMERIC => "NUMERIC" | TIMESTAMP => "TIMESTAMP" | TEXT => "TEXT"
  end.

Global Instance SqlType_eq_dec : EqDecision SqlType.
Proof. solve_decision. Defined.

(** The dtypes a column read by [pd.read_csv] can carry, by the name
    [str(dtype)] prints. [Int64Arrow] is the Arrow-backed integer dtype,
    which, unlike [int64], can hold missing values. *)
Inductive Dtype := Int64 | Int64Arrow | Float64 | BoolDtype | Object | Datetime64.

Definition dtype_str (d : Dtype) : string :=
  match d with
  | Int64 => "int64"
  | Int64Arrow => "int64[pyarrow]"
  | Float64 => "float64"
  | BoolDtype => "bool"
  | Object => "object"
  | Datetime64 => "datetime64[ns]"
  end.

(** [pd.api.types.is_integer_dtype], [is_float_dtype], [is_datetime64_dtype]. *)
Definition is_integer_dtype (d : Dtype) : bool :=
  match d with Int64 | Int64Arrow => true | _ => false end.
Definition is_float_dtype (d : Dtype) : bool :=
  match d with Float64 => true | _ => false end.
Definition is_datetime64_dtype (d : Dtype) : bool :=
  match d with Datetime64 => true | _ => false end.

(** ** The type catalogue and the catalogue-driven resolver
    ([create_ncua_tables.py]) *)
Module Catalogue.
Import PyStr.

(** A description file as [csv.reader] yields it: a list of rows, each a
    list of fields; [None] when [os.path.exists] is false. *)
Definition DescFile := option (list (list string)).

(** The body of the [for row in csv_reader] loop. *)
Definition store_row (column_types : gmap string string) (row : list string)
  : gmap string string :=
  match row with
  | r0 :: r1 :: _ :: _ =>
      let field_name := strip_quote (strip r0) in
      let field_type := strip_quote (strip r1) in
      let column_types := <[upper field_name := field_type]> column_types in
      if contains "_" field_name then
        let alt_name := replace_char "_" "-" field_name in
        <[upper alt_name := field_type]> column_types
      else if contains "-" field_name then
        let alt_name := replace_char "-" "_" field_name in
        <[upper alt_name := field_type]> column_types
      else column_types
  | _ => column_types
  end.

(** [_load_column_types_from_file]: skip the header, store every row of
    at least three fields. An empty file makes [next(csv_reader)] raise,
    which the function catches, leaving the dictionary as it was. *)
Definition _load_column_types_from_file (file : DescFile)
    (column_types : gmap string string) : gmap string string :=
  match file with
  | Some (_header :: rows) => fold_left store_row rows column_types
  | Some [] => column_types
  | None => column_types
  end.

Definition load_files (files : list DescFile)
    (column_types : gmap string string) : gmap string string :=
  fold_left (fun m f => _load_column_types_from_file f m) files column_types.

(** [_load_column_types_from_main_dir]: the three description files of the
    shared directory, in order. *)
Definition _load_column_types_from_main_dir := load_files.

(** The manual join-key step at the end of
    [load_column_type_definitions]. *)
Definition ensure_join_fields (column_types : gmap string string)
  : gmap string string :=
  match column_types !! "CU_NUMBER" with
  | Some t =>
      if String.eqb (lower t) "int" then
        <["CUNUMBER" := "int"]>
          (<["CU-NUMBER" := "int"]> (<["CU_NUMBER" := "int"]> column_types))
      else column_types
  | None => column_types
  end.

(** The part of [load_column_type_definitions] before the join-key step.
    [zip_specific] is [None] when there is no zip file or its directory
    does not exist, otherwise its three candidate files. *)
Definition load_sources (zip_specific : option (list DescFile))
    (main_dir : list DescFile) : gmap string string :=
  match zip_specific with
  | Some zip_desc_files =>
      let has_zip_desc_files :=
        existsb (fun f => match f with Some _ => true | None => false end)
                zip_desc_files in
      if has_zip_desc_files then load_files zip_desc_files ∅
      else _load_column_types_from_main_dir main_dir ∅
  | None => _load_column_types_from_main_dir main_dir ∅
  end.

Definition load_column_type_definitions
    (zip_specific : option (list DescFile)) (main_dir : list DescFile)
  : gmap string string :=
  ensure_join_fields (load_sources zip_specific main_dir).

(** The lookup of [get_sql_type_for_column]:
    [column_name.upper().strip()] as key. *)
Definition lookup (column_type_definitions : gmap string string)
    (column_name : string) : option string :=
  column_type_definitions !! strip (upper column_name).

Definition critical_join_fields : gmap string SqlType :=
  <["cu_number" := INTEGER]>
    (<["join_number" := INTEGER]> (<["cycle_date" := TIMESTAMP]> ∅)).

Definition keywords : list string := ["phone"; "fax"; "phonenumber"].

Definition has_keyword (col_lower : string) : bool :=
  existsb (fun keyword => contains keyword col_lower) keywords.

(** The fixed table from declared type to physical type. *)
Definition map_ncua_type (ncua_type : string) : SqlType :=
  if String.eqb ncua_type "int" then INTEGER
  else if String.eqb ncua_type "smallint" then SMALLINT
  else if String.eqb ncua_type "bigint" then BIGINT
  else if String.eqb ncua_type "varchar" then TEXT
  else if String.eqb ncua_type "char" then TEXT
  else if String.eqb ncua_type "date" || String.eqb ncua_type "smalldatetime"
       then TIMESTAMP
  else if String.eqb ncua_type "decimal" || String.eqb ncua_type "float"
       then NUMERIC
  else TEXT.

Definition get_sql_type_for_column
    (column_type_definitions : gmap string string)
    (column_name : string) (pandas_dtype : Dtype) : SqlType :=
  let col_lower := lower column_name in
  match critical_join_fields !! col_lower with
  | Some t => t
  | None =>
      if has_keyword col_lower then TEXT
      else
        match lookup column_type_definitions column_name with
        | Some declared => map_ncua_type (lower declared)
        | None =>
            if is_integer_dtype pandas_dtype then INTEGER
            else if is_float_dtype pandas_dtype then NUMERIC
            else if is_datetime64_dtype pandas_dtype then TIMESTAMP
            else TEXT
        end
  end.

(** [re.sub(r'[^a-zA-Z0-9_]', '_', col.lower())]. *)
Definition is_ident_char (c : ascii) : bool :=
  between 97 122 c || between 65 90 c || between 48 57 c
  || Ascii.eqb c "_"%char.

Definition clean_ident (col : string) : string :=
  map_chars (fun c => if is_ident_char c then c else "_"%char) (lower col).

(** The column definitions [create_table_from_dataframe] builds from
    [df.dtypes.items()]: each raw column name with its dtype. *)
Definition column_definition
    (column_type_definitions : gmap string string)
    (col : string) (dtype : Dtype) : string * SqlType :=
  let clean_col := clean_ident col in
  let sql_type :=
    if has_keyword (lower col) then TEXT
    else get_sql_type_for_column column_type_definitions col dtype in
  (clean_col, sql_type).


End Catalogue.

(** ** Exceptions *)

Inductive PyErr :=
| AttributeError | TypeError | ValueError | KeyError
| Exception_ (msg : string).

Inductive Result (A : Type) :=
| Ok (a : A)
| Raise (e : PyErr).
Arguments Ok {A} a.
Arguments Raise {A} e.

(** Sequencing: an exception raised by the first computation skips the
    rest. *)
Global Instance Result_bind : MBind Result := fun A B k r =>
  match r with
  | Ok a => k a
  | Raise e => Raise e
  end.

(** ** The pandas objects the scripts touch *)
Module Pandas.
Import PyStr.

(** A cell holds a Python object: an integer or a text; [None] is the
    missing value ([NaN] / [None]), the one [pd.isna] recognises. *)
Inductive Value := VInt (z : Z) | VStr (s : string).
Definition Cell := option Value.

Record Series := { dtype : Dtype; values : list Cell }.

(** A frame: the length of its index and its columns in order, each with
    its label. Labels may repeat. *)
Record DataFrame := { nrows : nat; columns : list (string * Series) }.

Definition labels (df : DataFrame) : list string := map fst (columns df).

(** [df[col]]: a [Series] when exactly one column carries the label, a
    sub-frame when several do. *)
Inductive Selection :=
| SelSeries (s : Series)
| SelFrame (cols : list Series)
| SelMissing.

Definition getitem (df : DataFrame) (col : string) : Selection :=
  match List.filter (fun c => String.eqb (fst c) col) (columns df) with
  | [] => SelMissing
  | [c] => SelSeries (snd c)
  | cs => SelFrame (map snd cs)
  end.

(** [df[col] = f(df[col])] column-wise: every column labelled [col] is
    replaced. *)
Definition setitem_with (f : Series -> Series) (df : DataFrame) (col : string)
  : DataFrame :=
  {| nrows := nrows df;
     columns := map (fun c => if String.eqb (fst c) col
                              then (fst c, f (snd c)) else c) (columns df) |}.

Definition select_dtypes (include : Dtype -> bool) (df : DataFrame)
  : list string :=
  map fst (List.filter (fun c => include (dtype (snd c))) (columns df)).

(** [series.dropna()]. *)
Definition dropna (cells : list Cell) : list Value :=
  omap (fun c => c) cells.

Definition str_value (v : Value) : string :=
  match v with
  | VInt z => str_Z z
  | VStr s => s
  end.

(** Python's [a > b] between cell values: integers and texts compare
    among themselves, a mixed comparison raises [TypeError]. *)
Definition py_gt (a b : Value) : Result bool :=
  match a, b with
  | VInt x, VInt y => Ok (Z.ltb y x)
  | VStr x, VStr y => Ok (String.ltb y x)
  | _, _ => Raise TypeError
  end.

Definition py_lt (a b : Value) : Result bool := py_gt b a.

(** [series.max()] / [series.min()] on the non-missing values: a left to
    right reduction with Python comparisons. *)
Fixpoint reduce_max (acc : Value) (vs : list Value) : Result Value :=
  match vs with
  | [] => Ok acc
  | v :: vs' =>
      b ← py_gt v acc; reduce_max (if (b : bool) then v else acc) vs'
  end.

Fixpoint reduce_min (acc : Value) (vs : list Value) : Result Value :=
  match vs with
  | [] => Ok acc
  | v :: vs' =>
      b ← py_lt v acc; reduce_min (if (b : bool) then v else acc) vs'
  end.

(** The reductions return a missing value on an empty selection. *)
Definition series_max (vs : list Value) : Result Cell :=
  match vs with
  | [] => Ok None
  | v :: vs' => m ← reduce_max v vs'; Ok (Some m)
  end.

Definition series_min (vs : list Value) : Result Cell :=
  match vs with
  | [] => Ok None
  | v :: vs' => m ← reduce_min v vs'; Ok (Some m)
  end.

(** [pd.isna(x)] on a scalar. *)
Definition isna (c : Cell) : bool :=
  match c with None => true | Some _ => false end.

(** [series.astype(str)]: every cell becomes text, a missing one the
    text [nan]. *)
Definition astype_str (s : Series) : Series :=
  {| dtype := Object;
     values := map (fun c => Some (VStr (match c with
                                         | Some v => str_value v
                                         | None => "nan"
                                         end))) (values s) |}.

(** Python dictionaries keep insertion order; [d[k] = v]. *)
Fixpoint dict_set {V} (k : string) (v : V) (d : list (string * V))
  : list (string * V) :=
  match d with
  | [] => [(k, v)]
  | (k', v') :: d' =>
      if String.eqb k k' then (k, v) :: d' else (k', v') :: dict_set k v d'
  end.

Definition Record_ := list (string * Cell).

(** [df.to_dict('records')]. *)
Definition row_record (df : DataFrame) (r : nat) : Record_ :=
  fold_left (fun d c => dict_set (fst c) (default None (values (snd c) !! r)) d)
            (columns df) [].

Definition to_dict_records (df : DataFrame) : list Record_ :=
  map (row_record df) (seq 0 (nrows df)).


End Pandas.


(** ** The extract-driven resolver and the per-file pipeline
    ([processor.py]) *)
Module Processor.
Import PyStr Pandas.

(** [col.strip().lower().replace(' ', '_').replace('-', '_')]. *)
Definition clean_name (col : string) : string :=
  replace_char "-" "_" (replace_char " " "_" (lower (strip col))).

Definition tables_with_large_numbers : list string :=
  ["fs220l"; "fs220d"; "fs220e"; "fs220f"].

Definition has_large_numbers (table_name : string) : bool :=
  existsb (fun t => contains t (lower table_name)) tables_with_large_numbers.

(** First pass of [_generate_schema]: how often each cleaned name occurs;
    it only feeds a warning. *)
Definition column_counts (cols : list string) : gmap string nat :=
  fold_left (fun m col =>
               let clean_col := clean_name col in
               <[clean_col := (default 0%nat (m !! clean_col) + 1)%nat]> m)
            cols ∅.

Definition duplicates (cols : list string) : gmap string nat :=
  filter (fun kv => (1 < snd kv)%nat) (column_counts cols).

(** The suffixing step: the identifier a column receives and the updated
    [column_index]. *)
Definition unique_name (column_index : gmap string nat) (clean_col : string)
  : string * gmap string nat :=
  match column_index !! clean_col with
  | Some n =>
      let n' := (n + 1)%nat in
      (clean_col +:+ "_" +:+ str_nat n', <[clean_col := n']> column_index)
  | None => (clean_col, <[clean_col := 0%nat]> column_index)
  end.

(** The [try] block of the integer branch: what it assigns, or the
    exception it raises. *)
Definition check_int_range (s : Series) : Result SqlType :=
  let non_null_values := dropna (values s) in
  if (0 <? length non_null_values)%nat then
    max_val ← series_max non_null_values;
    min_val ← series_min non_null_values;
    match (max_val : Cell), (min_val : Cell) with
    | Some max_v, Some min_v =>
        too_big ← py_gt max_v (VInt 2147483647);
        if (too_big : bool) then Ok NUMERIC
        else
          too_small ← py_lt min_v (VInt (-2147483648));
          if (too_small : bool) then Ok NUMERIC else Ok INTEGER
    | _, _ => Ok INTEGER
    end
  else Ok INTEGER.

(** The type decision for one column, from [str(df[col].dtype)] on. *)
Definition column_sql_type (large : bool) (s : Series) : SqlType :=
  let dtype := dtype_str (Pandas.dtype s) in
  if large then
    if contains "int" dtype || contains "float" dtype then NUMERIC
    else if contains "datetime" dtype then TIMESTAMP
    else TEXT
  else
    if contains "int" dtype then
      match check_int_range s with
      | Ok sql_type => sql_type
      | Raise _ => NUMERIC
      end
    else if contains "float" dtype then NUMERIC
    else if contains "datetime" dtype then TIMESTAMP
    else (* the length check of the text branch assigns TEXT on each of
            its paths, the [except] included *)
      TEXT.

(** The main loop of [_generate_schema] over [df.columns]. [df[col].dtype]
    raises [AttributeError] when [df[col]] is a sub-frame, that is when the
    label [col] is carried by several columns. *)
Fixpoint schema_loop (large : bool) (df : DataFrame) (cols : list string)
    (column_index : gmap string nat) : Result (list (string * SqlType)) :=
  match cols with
  | [] => Ok []
  | col :: rest =>
      let '(clean_col, column_index) :=
        unique_name column_index (clean_name col) in
      match getitem df col with
      | SelSeries s =>
          let sql_type := column_sql_type large s in
          columns ← schema_loop large df rest column_index;
          Ok ((clean_col, sql_type) :: (columns : list (string * SqlType)))
      | SelFrame _ => Raise AttributeError
      | SelMissing => Raise KeyError
      end
  end.

Definition schema_columns (df : DataFrame) (table_name : string)
  : Result (list (string * SqlType)) :=
  schema_loop (has_large_numbers table_name) df (labels df) ∅.

Definition column_text (c : string * SqlType) : string :=
  fst c +:+ " " +:+ sql_name (snd c).

Definition render_schema (table_name : string)
    (columns : list (string * SqlType)) : string :=
  "CREATE TABLE IF NOT EXISTS " +:+ table_name
    +:+ " (id SERIAL PRIMARY KEY, "
    +:+ join ", " (map column_text columns) +:+ ");".

Definition _generate_schema (df : DataFrame) (table_name : string)
  : Result string :=
  columns ← schema_columns df table_name;
  Ok (render_schema table_name columns).

(** The fallback of [_process_file]: every column [TEXT], no suffixing. *)
Definition simple_columns (df : DataFrame) : list (string * SqlType) :=
  map (fun col => (clean_name col, TEXT)) (labels df).

Definition simple_schema (df : DataFrame) (table_name : string) : string :=
  fold_left (fun acc c => acc +:+ ", " +:+ column_text c)
            (simple_columns df)
            ("CREATE TABLE IF NOT EXISTS " +:+ table_name
               +:+ " (id SERIAL PRIMARY KEY")
    +:+ ");".

(** Lines 254-272 of [_process_file]: the schema handed to table
    creation. *)
Definition resolve_schema (df : DataFrame) (table_name : string) : string :=
  match _generate_schema df table_name with
  | Ok schema => schema
  | Raise _ => simple_schema df table_name
  end.

(** The same decision on the column plans, before rendering. *)
Definition resolve_columns (df : DataFrame) (table_name : string)
  : list (string * SqlType) :=
  match schema_columns df table_name with
  | Ok columns => columns
  | Raise _ => simple_columns df
  end.

(** *** From a parsed file to its schema *)

(** What [_process_file] has after [pd.read_csv] succeeded.
    [base_name] stands for [os.path.splitext(file)[0]]. *)
Record ParsedFile := {
  file : string;
  base_name : string;
  year : option string;
  month : option string;
  df : DataFrame
}.

Definition truthy (o : option string) : bool :=
  match o with
  | Some s => negb (String.eqb s "")
  | None => false
  end.

Definition _get_table_name (base_name year month : string) : string :=
  let clean_base :=
    replace_char " " "_" (replace_char "-" "_" (lower (strip base_name))) in
  clean_base +:+ "_" +:+ year +:+ "_" +:+ month.

Definition table_name_of (pf : ParsedFile) : string :=
  if truthy (year pf) && truthy (month pf) then
    _get_table_name (base_name pf) (default "" (year pf))
                    (default "" (month pf))
  else replace_char "-" "_" (lower (base_name pf)).

Definition rename_columns (df : DataFrame) : DataFrame :=
  {| nrows := nrows df;
     columns := map (fun c => (clean_name (fst c), snd c)) (columns df) |}.

Definition remove_nul (s : string) : string :=
  string_of_list_ascii
    (List.filter (fun c => negb (Ascii.eqb c "000"%char)) (list_ascii_of_string s)).

(** [None if pd.isna(x) else str(x).strip()], for branch files also
    without NUL characters. *)
Definition clean_cell (is_branch_info : bool) (c : Cell) : Cell :=
  match c with
  | None => None
  | Some v =>
      let s := strip (str_value v) in
      Some (VStr (if is_branch_info then remove_nul s else s))
  end.

Definition apply_clean (is_branch_info : bool) (s : Series) : Series :=
  {| dtype := Object; values := map (clean_cell is_branch_info) (values s) |}.

(** The loop over the object columns. On a repeated label [df[col]] is a
    sub-frame, [apply] hands whole columns to the lambda, and the truth
    value of [pd.isna(column)] raises [ValueError]. *)
Fixpoint clean_object_columns (is_branch_info : bool) (cols : list string)
    (df : DataFrame) : Result DataFrame :=
  match cols with
  | [] => Ok df
  | col :: rest =>
      match getitem df col with
      | SelSeries _ =>
          clean_object_columns is_branch_info rest
            (setitem_with (apply_clean is_branch_info) df col)
      | SelFrame _ => Raise ValueError
      | SelMissing => Raise KeyError
      end
  end.

Definition is_object (d : Dtype) : bool :=
  match d with Object => true | _ => false end.
Definition is_int64_or_float64 (d : Dtype) : bool :=
  match d with Int64 | Float64 => true | _ => false end.

(** Lines 224-252: the guards and the clean-up that precede schema
    generation. Returns the table name and the frame that reaches it. *)
Definition prepare (pf : ParsedFile) : Result (string * DataFrame) :=
  let is_branch_info := contains "branch" (lower (file pf)) in
  let is_fs220l := contains "fs220l" (lower (file pf)) in
  if (nrows (df pf) =? 0)%nat then
    Raise (Exception_ "File contains no data rows")
  else if (length (columns (df pf)) =? 0)%nat then
    Raise (Exception_ "File contains no columns")
  else
    let df1 := rename_columns (df pf) in
    let table_name := table_name_of pf in
    df2 ← clean_object_columns is_branch_info
             (select_dtypes is_object df1) df1;
    let df3 :=
      if is_fs220l then
        fold_left (setitem_with astype_str)
                  (select_dtypes is_int64_or_float64 df2) (df2 : DataFrame)
      else df2 in
    Ok (table_name, df3).

(** [_process_file] up to the call of [create_tables]: the table name and
    the schema passed on, or the exception that aborts the file. *)
Definition process_file_schema (pf : ParsedFile) : Result (string * string) :=
  '(table_name, df) ← prepare pf;
  Ok (table_name, resolve_schema df table_name).

End Processor.

(** ** The bulk insert ([database.py]) and the load step of
    [_process_file] *)
Module Database.
Import PyStr Pandas.

(** What [requests.post] does: it returns a response with a status code
    or raises (time-out, connection error). *)
Inductive Response := Status (status_code : Z) | TransportError.

(** What the loader does to the outside, in order: the POST requests it
    sends and the lines it prints or logs about a batch. A batch is named
    by [i], the index of its first record. *)
Inductive Event :=
| Post (table_name : string) (i : nat) (batch : list Record_)
| Success (i : nat)
| Retry (i : nat) (retry_count : nat)
| Failed (i : nat).

Record World := { sent : nat; trace : list Event }.

Definition emit (e : Event) (w : World) : World :=
  {| sent := sent w; trace := trace w ++ [e] |}.

Definition post (table_name : string) (i : nat) (batch : list Record_)
    (w : World) : World :=
  {| sent := S (sent w); trace := trace w ++ [Post table_name i batch] |}.

(** The body of the [try] of one attempt, given the answer to its POST:
    [true] when it reaches a [break], [false] when it raises. *)
Definition attempt_succeeds (r : Response) : bool :=
  match r with
  | TransportError => false
  | Status status_code =>
      if status_code =? 204 then true
      else if 400 <=? status_code then false
      else true
  end.

Inductive PyRet := RetNone | RetTrue | RetFalse.

(** [if insert_success:] *)
Definition ret_truthy (r : PyRet) : bool :=
  match r with RetTrue => true | _ => false end.

Definition clean_key (key : string) : string :=
  replace_char "-" "_" (replace_char " " "_" (lower (strip key))).

Definition clean_record (record : Record_) : Record_ :=
  fold_left (fun d kv => dict_set (clean_key (fst kv)) (snd kv) d) record [].

Definition remove_nul_value (c : Cell) : Cell :=
  match c with
  | Some (VStr s) =>
      Some (VStr (string_of_list_ascii
                    (List.filter (fun a => negb (Ascii.eqb a "000"%char))
                            (list_ascii_of_string s))))
  | _ => c
  end.

Definition clean_records (table_name : string) (records : list Record_)
  : list Record_ :=
  let cleaned_records := map clean_record records in
  if contains "branch_information" table_name || contains "branch" table_name
  then map (map (fun kv => (fst kv, remove_nul_value (snd kv)))) cleaned_records
  else cleaned_records.

(** [range(start, stop, step)] for a positive step. *)
Fixpoint range_from (fuel start stop step : nat) : list nat :=
  match fuel with
  | O => []
  | S fuel' =>
      if (start <? stop)%nat
      then start :: range_from fuel' (start + step) stop step
      else []
  end.

Definition range (start stop step : nat) : list nat :=
  range_from stop start stop step.

(** [l[i:j]]. *)
Definition slice {A} (l : list A) (i j : nat) : list A :=
  firstn (j - i) (skipn i l).

Definition batch_size : nat := 50.

Section Store.
(** The remote store: its answer to the k-th POST request; and the
    cleaned table name the requests go to. *)
Variable store : nat -> Response.
Variable table_name : string.

(** The [while retry_count < 3] loop of one batch. [fuel] bounds the
    number of iterations; [None] means the bound was reached. *)
Fixpoint retry_loop (fuel : nat) (retry_count : nat) (i : nat)
    (batch : list Record_) (w : World) : option World :=
  match fuel with
  | O => None
  | S fuel' =>
      if (retry_count <? 3)%nat then
        let response := store (sent w) in
        let w := post table_name i batch w in
        if attempt_succeeds response then Some (emit (Success i) w)
        else
          let retry_count := (retry_count + 1)%nat in
          if (retry_count =? 3)%nat then Some (emit (Failed i) w)
          else retry_loop fuel' retry_count i batch
                          (emit (Retry i retry_count) w)
      else Some w
  end.

(** The [for i in range(0, len(cleaned_records), batch_size)] loop. *)
Fixpoint batch_loop (cleaned_records : list Record_) (starts : list nat)
    (w : World) : option World :=
  match starts with
  | [] => Some w
  | i :: rest =>
      let batch := slice cleaned_records i (i + batch_size) in
      w ← retry_loop 3 0 i batch w;
      batch_loop cleaned_records rest w
  end.

End Store.

(** [insert_data], with the records of [data.to_dict('records')]. The
    requests go to the cleaned table name. *)
Definition insert_records (store : nat -> Response) (table_name : string)
    (records : list Record_) (w : World) : option (World * PyRet) :=
  let table_name := replace_char "-" "_" (lower (strip table_name)) in
  match records with
  | [] => Some (w, RetNone)
  | _ =>
      let cleaned_records := clean_records table_name records in
      w ← batch_loop store table_name cleaned_records
             (range 0 (length cleaned_records) batch_size) w;
      Some (w, RetTrue)
  end.

Definition insert_data (store : nat -> Response) (table_name : string)
    (data : DataFrame) (w : World) : option (World * PyRet) :=
  insert_records store table_name (to_dict_records data) w.

(** *** The row-count check of [_process_file] *)

(** The [content-range] header of the counting GET: absent, carrying a
    count after its last [/], or not a number there. *)
Inductive ContentRange := NoHeader | Count (n : Z) | Malformed.

Inductive RestProbe :=
| RestResponse (status_code : Z) (content_range : ContentRange)
| RestRaises.

(** The fall-back count through the client: its [count] attribute (which
    may be [None]), no such attribute, or an exception. *)
Inductive ClientProbe :=
| ClientCount (count : option Z)
| ClientNoCount
| ClientRaises.

Definition client_count (client : ClientProbe) : option Z :=
  match client with
  | ClientCount count => count
  | ClientNoCount => Some 0
  | ClientRaises => Some 0
  end.

(** The value of [record_count] when the check is over ([None] is
    Python's [None]). *)
Definition record_count (rest : RestProbe) (client : ClientProbe) : option Z :=
  match rest with
  | RestResponse status_code content_range =>
      if status_code =? 200 then
        match content_range with
        | NoHeader => Some 0
        | Count n => Some n
        | Malformed => client_count client
        end
      else Some 0
  | RestRaises => client_count client
  end.

Inductive LoadOutcome :=
| Skipped (record_count : Z)
| Inserted (insert_success : bool).

(** Lines 281-328 of [_process_file]: skip or insert. *)
Definition load_step (store : nat -> Response) (rest : RestProbe)
    (client : ClientProbe) (table_name : string) (df : DataFrame)
    (w : World) : option (World * Result LoadOutcome) :=
  match record_count rest client with
  | None => Some (w, Raise TypeError)
  | Some record_count =>
      if 0 <? record_count then Some (w, Ok (Skipped record_count))
      else
        '(w, insert_success) ← insert_data store table_name df w;
        Some (w, Ok (Inserted (ret_truthy insert_success)))
  end.

(** The POST requests of a trace, and those of one batch. *)
Definition is_post (e : Event) : bool :=
  match e with Post _ _ _ => true | _ => false end.

Definition is_post_of (i : nat) (e : Event) : bool :=
  match e with Post _ j _ => (i =? j)%nat | _ => false end.

Definition posts (tr : list Event) : nat := length (List.filter is_post tr).
Definition posts_of (i : nat) (tr : list Event) : nat :=
  length (List.filter (is_post_of i) tr).

Definition init : World := {| sent := 0; trace := [] |}.

End Database.

(** ** Vocabulary of the statements *)
Module Vocabulary.
Import PyStr Catalogue.

(** Occurrence of one character. *)
Fixpoint has_char (c : ascii) (s : string) : bool :=
  match s with
  | EmptyString => false
  | String d s' => Ascii.eqb c d || has_char c s'
  end.

(** The two spellings of a name. *)
Definition underscore_spelling : string -> string := replace_char "-" "_".
Definition hyphen_spelling : string -> string := replace_char "_" "-".

(** The catalogue invariant: a key's underscore spelling and its hyphen
    spelling carry the same entry. *)
Definition aliased (m : gmap string string) : Prop :=
  forall k, m !! underscore_spelling k = m !! hyphen_spelling k.

(** The field name [_load_column_types_from_file] reads off a row. *)
Definition field_name_of (r0 : string) : string := strip_quote (strip r0).

(** A field name is mixed when it contains both separators. *)
Definition mixed (field_name : string) : bool :=
  contains "_" field_name && contains "-" field_name.

Definition row_unmixed (row : list string) : bool :=
  match row with
  | r0 :: _ :: _ :: _ => negb (mixed (field_name_of r0))
  | _ => true
  end.

Definition file_unmixed (file : DescFile) : bool :=
  match file with
  | Some (_ :: rows) => forallb row_unmixed rows
  | _ => true
  end.

(** The description files [load_column_type_definitions] reads. *)
Definition read_files (zip_specific : option (list DescFile))
    (main_dir : list DescFile) : list DescFile :=
  match zip_specific with
  | Some zip_desc_files =>
      if existsb (fun f => match f with Some _ => true | None => false end)
                 zip_desc_files
      then zip_desc_files else main_dir
  | None => main_dir
  end.

Definition sources_unmixed (zip_specific : option (list DescFile))
    (main_dir : list DescFile) : bool :=
  forallb file_unmixed (read_files zip_specific main_dir).

(** The field names loaded from the files read. *)
Definition row_name (row : list string) : option string :=
  match row with
  | r0 :: _ :: _ :: _ => Some (field_name_of r0)
  | _ => None
  end.

Definition file_names (file : DescFile) : list string :=
  match file with
  | Some (_ :: rows) => omap row_name rows
  | _ => []
  end.

Definition loaded_names (zip_specific : option (list DescFile))
    (main_dir : list DescFile) : list string :=
  concat (map file_names (read_files zip_specific main_dir)).

(** The all-text schema over a list of column names, written out: the
    synthetic primary key, then every name typed TEXT. *)
Definition text_columns (names : list string) : string :=
  fold_right (fun name rest => ", " +:+ name +:+ " TEXT" +:+ rest) "" names.

Definition degraded_schema (table_name : string) (names : list string)
  : string :=
  "CREATE TABLE IF NOT EXISTS " +:+ table_name
    +:+ " (id SERIAL PRIMARY KEY" +:+ text_columns names +:+ ");".

(** How many columns of a frame carry a label, and whether every text
    column carries a label of its own. *)
Definition label_count (df : Pandas.DataFrame) (col : string) : nat :=
  length (List.filter (fun c => String.eqb (fst c) col) (Pandas.columns df)).

Definition object_labels_unique (df : Pandas.DataFrame) : bool :=
  forallb (fun col => (label_count df col =? 1)%nat)
          (Pandas.select_dtypes Processor.is_object df).

(** The chunks [insert_data] cuts a list of records into. *)
Definition chunk_starts (cleaned_records : list Pandas.Record_) : list nat :=
  Database.range 0 (length cleaned_records) Database.batch_size.

Definition chunk (cleaned_records : list Pandas.Record_) (i : nat)
  : list Pandas.Record_ :=
  Database.slice cleaned_records i (i + Database.batch_size).

(** How the submission of batch [i] ended, read off the events [evs]:
    either it succeeded, or it failed after three POST requests. *)
Definition batch_settled (i : nat) (evs : list Database.Event) : Prop :=
  (In (Database.Success i) evs /\ ~ In (Database.Failed i) evs)
  \/ (In (Database.Failed i) evs /\ ~ In (Database.Success i) evs
      /\ Database.posts_of i evs = 3%nat).

(** A value outside the signed 32-bit range. *)
Definition out_of_int4 (z : Z) : Prop :=
  2147483647 < z \/ z < -2147483648.

End Vocabulary.

(** ** Concrete inputs *)
Module Examples.
Import PyStr Catalogue Pandas Processor Database.

(** The description file of the counterexample to C7: one field name with
    both separators. *)
Definition mixed_source : list DescFile :=
  [Some [["FieldName"; "FieldType"; "Description"];
         ["A_B-C"; "int"; "mixed separators"]]].

Definition plain_source : list DescFile :=
  [Some [["FieldName"; "FieldType"; "Description"];
         ["CU_NUMBER"; "int"; "charter number"];
         ["ACCT-010"; "decimal"; "total loans"]]].

(** The description file of the counterexample to C8: the credit-union
    number declared as text. *)
Definition varchar_source : list DescFile :=
  [Some [["FieldName"; "FieldType"; "Description"];
         ["CU_NUMBER"; "varchar"; "charter number"]]].

Definition series (d : Dtype) (cells : list Pandas.Cell) : Series :=
  {| dtype := d; values := cells |}.

(** One integer column holding 4000000000. *)
Definition big_int_frame : DataFrame :=
  {| nrows := 1;
     columns := [("amount", series Int64 [Some (VInt 4000000000)])] |}.

(** One integer column without any value. *)
Definition all_null_frame : DataFrame :=
  {| nrows := 2; columns := [("n", series Int64Arrow [None; None])] |}.

(** One integer column with a missing value and a value below the signed
    32-bit range. *)
Definition wide_frame : DataFrame :=
  {| nrows := 3;
     columns := [("n", series Int64Arrow
                         [Some (VInt 7); None;
                          Some (VInt (-3000000000))])] |}.

(** Three distinct labels; the second collides with the first after
    cleaning, and its suffixed identifier is the third label. *)
Definition collide_frame : DataFrame :=
  {| nrows := 1;
     columns := [("amt", series Int64 [Some (VInt 1)]);
                 ("Amt", series Int64 [Some (VInt 2)]);
                 ("amt_1", series Int64 [Some (VInt 3)])] |}.

(** Labels that differ only by case resolve by suffix. *)
Definition case_frame : DataFrame :=
  {| nrows := 1;
     columns := [("amt", series Int64 [Some (VInt 1)]);
                 ("Amt", series Int64 [Some (VInt 2)]);
                 ("AMT", series Int64 [Some (VInt 3)])] |}.

(** A file whose header is [amt,Amt], with one row. *)
Definition case_file : ParsedFile :=
  {| file := "loans.txt"; base_name := "loans";
     year := Some "2024"; month := Some "03";
     df := {| nrows := 1;
              columns := [("amt", series Int64 [Some (VInt 1)]);
                          ("Amt", series Int64 [Some (VInt 2)])] |} |}.

(** A file with a header and no data row. *)
Definition empty_file : ParsedFile :=
  {| file := "loans.txt"; base_name := "loans";
     year := Some "2024"; month := Some "03";
     df := {| nrows := 0; columns := [("amt", series Object [])] |} |}.

(** A file with one integer column holding 4000000000 and a text
    column. *)
Definition plain_file : ParsedFile :=
  {| file := "loans.txt"; base_name := "loans";
     year := Some "2024"; month := Some "03";
     df := {| nrows := 1;
              columns := [("Amount", series Int64 [Some (VInt 4000000000)]);
                          ("Name", series Object [Some (VStr " a ")])] |} |}.

(** A store that rejects the first three requests and accepts the
    rest. *)
Definition flaky_store (k : nat) : Response :=
  if (k <? 3)%nat then Status 500 else Status 201.

Definition sixty_records : list Record_ :=
  repeat [("amt", Some (VInt 1))] 60.

End Examples.

(** ** File selection, period extraction and the loop over a zip
    ([processor.py]) *)
Module Files.
Import PyStr.

(** [s.startswith(p)] and [s.endswith(p)]. *)
Definition startswith (p s : string) : bool := String.prefix p s.

Fixpoint endswith (p s : string) : bool :=
  String.eqb p s ||
  match s with
  | EmptyString => false
  | String _ s' => endswith p s'
  end.

Definition _should_process_file (filename : string) : bool :=
  if startswith "." filename || startswith "~" filename then false
  else endswith ".zip" filename || endswith ".txt" filename.

Definition is_digit (c : ascii) : bool := between 48 57 c.

(** The pattern of [_extract_date_info], four digits, a hyphen, two
    digits, matched at the start of [s]. *)
Definition match_date_at (s : string) : option (string * string) :=
  match s with
  | String y1 (String y2 (String y3 (String y4
      (String h (String m1 (String m2 _)))))) =>
      if is_digit y1 && is_digit y2 && is_digit y3 && is_digit y4
         && Ascii.eqb h "-"%char && is_digit m1 && is_digit m2
      then Some (String y1 (String y2 (String y3 (String y4 EmptyString))),
                 String m1 (String m2 EmptyString))
      else None
  | _ => None
  end.

(** [re.search]: the leftmost position where the pattern matches.
    [None] stands for the result [(None, None)]. *)
Fixpoint _extract_date_info (filename : string) : option (string * string) :=
  match match_date_at filename with
  | Some ym => Some ym
  | None =>
      match filename with
      | EmptyString => None
      | String _ rest => _extract_date_info rest
      end
  end.

(** The loop of [_process_zip] over the extracted files. Each entry is a
    file name with what [_process_file] does on it: [true] when it returns,
    [false] when it raises. The result is [(success_count, error_count)]. *)
Fixpoint process_loop (files_to_process : list (string * bool))
    (success_count error_count : nat) : nat * nat :=
  match files_to_process with
  | [] => (success_count, error_count)
  | (file, returns) :: rest =>
      if endswith ".txt" file then
        if returns then process_loop rest (success_count + 1) error_count
        else process_loop rest success_count (error_count + 1)
      else process_loop rest success_count error_count
  end.

Definition _process_zip_counts (listing : list (string * bool)) : nat * nat :=
  process_loop
    (List.filter (fun f => _should_process_file (fst f)) listing) 0 0.

(** Whether [_process_zip] moves the archive to the output directory. *)
Definition zip_moved (listing : list (string * bool)) : bool :=
  (0 <? fst (_process_zip_counts listing))%nat.

End Files.

(** ** The single-request loader of [create_ncua_tables.py] *)
Module TableInsert.
Import Pandas Database.

(** [response.status_code in [200, 201, 204]]. *)
Definition accepted (r : Response) : bool :=
  match r with
  | TransportError => false
  | Status status_code =>
      (status_code =? 200) || (status_code =? 201) || (status_code =? 204)
  end.

Definition max_retries : nat := 3.

(** The request loop of [insert_dataframe] on the records it has built:
    all records go in one request to the table name as given. The result
    carries the returned [success]. *)
Fixpoint insert_loop (store : nat -> Response) (table_name : string)
    (records : list Record_) (fuel retry_count : nat) (w : World)
  : option (World * bool) :=
  match fuel with
  | O => None
  | S fuel' =>
      if (retry_count <? max_retries)%nat then
        let response := store (sent w) in
        let w := post table_name 0 records w in
        if accepted response then Some (emit (Success 0) w, true)
        else
          let retry_count := (retry_count + 1)%nat in
          if (retry_count <? max_retries)%nat then
            insert_loop store table_name records fuel' retry_count
                        (emit (Retry 0 (retry_count + 1)) w)
          else
            insert_loop store table_name records fuel' retry_count w
      else Some (emit (Failed 0) w, false)
  end.

Definition insert_dataframe_records (store : nat -> Response)
    (table_name : string) (records : list Record_) (w : World)
  : option (World * bool) :=
  insert_loop store table_name records 4 0 w.

End TableInsert.

(** ** Vocabulary of the further statements *)
Module Specs.
Import PyStr Pandas Processor Database.

(** How often a cleaned name occurs in a list of cleaned names. *)
Definition occurrences (name : string) (names : list string) : nat :=
  length (List.filter (String.eqb name) names).

(** The identifier a column is to receive, given the cleaned names of the
    columns before it: the cleaned name itself at its first occurrence, the
    name with the number of earlier occurrences after it. *)
Definition expected_identifier (cleaned_before : list string)
    (clean_col : string) : string :=
  match occurrences clean_col cleaned_before with
  | O => clean_col
  | S n => clean_col +:+ "_" +:+ str_nat (S n)
  end.

Definition chars (s : string) : list ascii := list_ascii_of_string s.

(** No upper-case letter, no hyphen and no space. *)
Definition normalized_char (c : ascii) : bool :=
  negb (between 65 90 c) && negb (Ascii.eqb c "-"%char)
  && negb (Ascii.eqb c " "%char).

Definition normalized (s : string) : bool := forallb normalized_char (chars s).

(** A lower-case letter, a digit or an underscore. *)
Definition lower_ident_char (c : ascii) : bool :=
  between 97 122 c || between 48 57 c || Ascii.eqb c "_"%char.

Definition all_digits (s : string) : bool :=
  forallb Files.is_digit (chars s).

(** A cell value within the signed 32-bit range. *)
Definition in_int4 (c : Cell) : Prop :=
  match c with
  | None => True
  | Some (VInt z) => -2147483648 <= z <= 2147483647
  | Some (VStr _) => False
  end.

(** The events of one batch when every request is accepted, and when
    every request is rejected. *)
Definition accepted_events (table_name : string)
    (cleaned_records : list Record_) (i : nat) : list Event :=
  [Post table_name i (slice cleaned_records i (i + batch_size)); Success i].

Definition rejected_events (table_name : string)
    (cleaned_records : list Record_) (i : nat) : list Event :=
  let batch := slice cleaned_records i (i + batch_size) in
  [Post table_name i batch; Retry i 1;
   Post table_name i batch; Retry i 2;
   Post table_name i batch; Failed i].

(** The character map of [clean_name]: lower case, then space and hyphen
    to underscore. *)
Definition clean_char (c : ascii) : ascii :=
  (fun c => if Ascii.eqb c "-"%char then "_"%char else c)
    ((fun c => if Ascii.eqb c " "%char then "_"%char else c) (lower_char c)).

(** The types [_generate_schema] chooses among. *)
Definition inferred_type (t : SqlType) : bool :=
  match t with
  | INTEGER | NUMERIC | TIMESTAMP | TEXT => true
  | SMALLINT | BIGINT => false
  end.

(** A large-number file as [_process_file] has it after
    [pd.read_csv(..., dtype='object')]: every column holds texts. *)
Definition fs220l_file : ParsedFile :=
  {| file := "FS220L.txt"; base_name := "FS220L";
     year := Some "2024"; month := Some "03";
     df := {| nrows := 1;
              columns :=
                [("CU_NUMBER",
                  {| dtype := Object; values := [Some (VStr "7")] |});
                 ("ACCT_890",
                  {| dtype := Object; values := [None] |});
                 ("Name",
                  {| dtype := Object; values := [Some (VStr "a")] |})] |} |}.

(** Every column of a frame has dtype [object]. *)
Definition object_frame (df : DataFrame) : Prop :=
  Forall (fun c => dtype (snd c) = Object) (columns df).

(** The cells an integer column holds: integers and missing values. *)
Definition integer_cell (c : Cell) : bool :=
  match c with
  | Some (VStr _) => false
  | _ => true
  end.

Definition integer_column (s : Series) : bool :=
  forallb integer_cell (values s).

(** *** The loader as the specification words it *)

(** [k] rejected attempts at a chunk, each followed by the notice of a
    retry. *)
Definition rejected_attempts (table_name : string) (i : nat)
    (batch : list Record_) (k : nat) : list Event :=
  flat_map (fun j => [Post table_name i batch; Retry i (S j)]) (seq 0 k).

(** The submission of one chunk from request number [b] on: at most three
    attempts; the first accepted attempt ends it as a success, three
    rejected attempts end it as a recorded failure. It gives the events and
    the number of the next request. *)
Inductive chunk_submission (store : nat -> Response) (table_name : string)
    (i : nat) (batch : list Record_) : nat -> list Event -> nat -> Prop :=
| submission_accepted (b k : nat) :
    (k < 3)%nat ->
    (forall j, (j < k)%nat -> attempt_succeeds (store (b + j)%nat) = false) ->
    attempt_succeeds (store (b + k)%nat) = true ->
    chunk_submission store table_name i batch b
      (rejected_attempts table_name i batch k
         ++ [Post table_name i batch; Success i])
      (b + k + 1)%nat
| submission_failed (b : nat) :
    (forall j, (j < 3)%nat -> attempt_succeeds (store (b + j)%nat) = false) ->
    chunk_submission store table_name i batch b
      (rejected_attempts table_name i batch 2
         ++ [Post table_name i batch; Failed i])
      (b + 3)%nat.

(** The load of the chunks in order: whatever the outcome of a chunk, the
    next one is submitted. *)
Inductive load_run (store : nat -> Response) (table_name : string)
    (cleaned_records : list Record_)
  : list nat -> nat -> list Event -> nat -> Prop :=
| load_done (b : nat) : load_run store table_name cleaned_records [] b [] b
| load_chunk (i : nat) (rest : list nat) (b b' b'' : nat)
    (evs evs' : list Event) :
    chunk_submission store table_name i
      (slice cleaned_records i (i + batch_size)) b evs b' ->
    load_run store table_name cleaned_records rest b' evs' b'' ->
    load_run store table_name cleaned_records (i :: rest) b (evs ++ evs') b''.

(** A file the loop of [_process_zip] hands to [_process_file]. *)
Definition is_data_file (name : string) : bool :=
  Files._should_process_file name && Files.endswith ".txt" name.

(** Every key of a dictionary is its own upper-casing. *)
Definition keys_upper (m : gmap string string) : Prop :=
  forall k, is_Some (m !! k) -> upper k = k.

(** The table name [insert_data] and [create_tables] send requests to. *)
Definition clean_table_name (table_name : string) : string :=
  replace_char "-" "_" (lower (strip table_name)).

End Specs.
(** ** Running the model *)

Example lower_ex : PyStr.lower "Phone-No 1" = "phone-no 1".
Proof. reflexivity. Qed.
Example strip_ex : PyStr.strip "  a b  " = "a b".
Proof. reflexivity. Qed.
Example str_ex : PyStr.str_nat 12 = "12".
Proof. reflexivity. Qed.
Example cat_ex :
  Catalogue.get_sql_type_for_column
    (Catalogue.load_column_type_definitions None
       [Some [["h"; "h"; "h"]; ["ACCT_010"; "bigint"; "x"]]])
    "acct-010" Int64 = BIGINT.
Proof. vm_compute. reflexivity. Qed.

(** ** Facts about the string methods *)
Section StringFacts.
Import PyStr Vocabulary.

Lemma map_chars_compose f g s :
  map_chars f (map_chars g s) = map_chars (fun c => f (g c)) s.
Proof. induction s as [|c s IH]; simpl; [reflexivity | now rewrite IH]. Qed.

Lemma map_chars_ext f g s :
  (forall c, f c = g c) -> map_chars f s = map_chars g s.
Proof.
  intros E. induction s as [|c s IH]; simpl; [reflexivity | now rewrite E, IH].
Qed.

Lemma map_chars_commute f g s :
  (forall c, f (g c) = g (f c)) ->
  map_chars f (map_chars g s) = map_chars g (map_chars f s).
Proof.
  intros E. rewrite !map_chars_compose. now apply map_chars_ext.
Qed.

(** Stripping commutes with a character map that keeps the stripped
    class. *)
Lemma lstrip_map p f s :
  (forall c, p (f c) = p c) ->
  lstrip_by p (map_chars f s) = map_chars f (lstrip_by p s).
Proof.
  intros E. induction s as [|c s IH]; simpl; [reflexivity|].
  rewrite E. destruct (p c); [exact IH | reflexivity].
Qed.

Lemma rstrip_map p f s :
  (forall c, p (f c) = p c) ->
  rstrip_by p (map_chars f s) = map_chars f (rstrip_by p s).
Proof.
  intros E. induction s as [|c s IH]; simpl; [reflexivity|].
  rewrite IH, E. destruct (rstrip_by p s); simpl; [|reflexivity].
  destruct (p c); reflexivity.
Qed.

Lemma strip_by_map p f s :
  (forall c, p (f c) = p c) ->
  strip_by p (map_chars f s) = map_chars f (strip_by p s).
Proof.
  intros E. unfold strip_by. now rewrite lstrip_map, rstrip_map.
Qed.

Lemma prefix_empty s : String.prefix "" s = true.
Proof. destruct s; reflexivity. Qed.

Lemma contains_char c s : contains (String c "") s = has_char c s.
Proof.
  induction s as [|d s IH]; [reflexivity|].
  cbn [contains has_char String.prefix]. rewrite IH, prefix_empty.
  destruct (ascii_dec c d) as [->|N].
  - now rewrite Ascii.eqb_refl.
  - apply Ascii.eqb_neq in N. now rewrite N.
Qed.

Lemma replace_absent old new s :
  has_char old s = false -> replace_char old new s = s.
Proof.
  induction s as [|d s IH]; [reflexivity|].
  unfold replace_char in *. cbn [map_chars has_char].
  intros H. apply orb_false_iff in H as [H1 H2].
  rewrite Ascii.eqb_sym in H1. rewrite H1. now rewrite (IH H2).
Qed.

End StringFacts.

(** ** The catalogue *)
Section CatalogueFacts.
Import PyStr Catalogue Vocabulary.

Local Abbreviation us := underscore_spelling.
Local Abbreviation hy := hyphen_spelling.

Lemma us_hy s : us (hy s) = us s.
Proof.
  unfold us, hy, replace_char. rewrite map_chars_compose.
  apply map_chars_ext. intros [[] [] [] [] [] [] [] []]; reflexivity.
Qed.

Lemma hy_us s : hy (us s) = hy s.
Proof.
  unfold us, hy, replace_char. rewrite map_chars_compose.
  apply map_chars_ext. intros [[] [] [] [] [] [] [] []]; reflexivity.
Qed.

Lemma us_us s : us (us s) = us s.
Proof.
  unfold us, replace_char. rewrite map_chars_compose.
  apply map_chars_ext. intros [[] [] [] [] [] [] [] []]; reflexivity.
Qed.

Lemma hy_hy s : hy (hy s) = hy s.
Proof.
  unfold hy, replace_char. rewrite map_chars_compose.
  apply map_chars_ext. intros [[] [] [] [] [] [] [] []]; reflexivity.
Qed.

Lemma upper_us s : upper (us s) = us (upper s).
Proof.
  unfold us, upper, replace_char. apply map_chars_commute.
  intros [[] [] [] [] [] [] [] []]; reflexivity.
Qed.

Lemma upper_hy s : upper (hy s) = hy (upper s).
Proof.
  unfold hy, upper, replace_char. apply map_chars_commute.
  intros [[] [] [] [] [] [] [] []]; reflexivity.
Qed.

Lemma strip_us s : strip (us s) = us (strip s).
Proof.
  unfold us, strip, replace_char. apply strip_by_map.
  intros [[] [] [] [] [] [] [] []]; reflexivity.
Qed.

Lemma strip_hy s : strip (hy s) = hy (strip s).
Proof.
  unfold hy, strip, replace_char. apply strip_by_map.
  intros [[] [] [] [] [] [] [] []]; reflexivity.
Qed.

Lemma aliased_empty : aliased ∅.
Proof. intros k. now rewrite !lookup_empty. Qed.

(** Storing one value under a key and under its alias keeps the
    invariant, in whichever order the two are written. *)
Lemma aliased_insert_pair m a b t :
  us a = a -> hy a = b -> aliased m ->
  aliased (<[b := t]> (<[a := t]> m)) /\ aliased (<[a := t]> (<[b := t]> m)).
Proof.
  intros Ha Hb Hm.
  assert (Hub : us b = a) by (rewrite <- Hb, us_hy; exact Ha).
  assert (Hhb : hy b = b) by (rewrite <- Hb; apply hy_hy).
  assert (T : forall k, (us k = a \/ us k = b) <-> (hy k = a \/ hy k = b)).
  { intros k. split.
    - intros [E|E]; right.
      + rewrite <- (hy_us k), E. exact Hb.
      + assert (a = b) as <-.
        { rewrite <- Hub, <- E. now rewrite us_us. }
        rewrite <- (hy_us k), E. rewrite <- Hb at 2. now rewrite Hb.
    - intros [E|E]; left.
      + assert (b = a) as ->.
        { rewrite <- Hb, <- E. now rewrite hy_hy. }
        rewrite <- (us_hy k), E. exact Ha.
      + rewrite <- (us_hy k), E. exact Hub. }
  split; intros k; specialize (T k); specialize (Hm k);
    rewrite !lookup_insert; repeat case_decide;
    try reflexivity; try exact Hm; exfalso;
    destruct T as [T1 T2];
    first [ destruct T1 as [E|E]; [auto | congruence | congruence]
          | destruct T2 as [E|E]; [auto | congruence | congruence] ].
Qed.

Lemma store_row_aliased m row :
  row_unmixed row = true -> aliased m -> aliased (store_row m row).
Proof.
  intros U Hm. destruct row as [|r0 [|r1 [|r2 rest]]]; try exact Hm.
  unfold store_row. unfold row_unmixed, mixed, field_name_of in U.
  set (f := strip_quote (strip r0)) in *.
  set (t := strip_quote (strip r1)).
  rewrite !contains_char in *.
  destruct (has_char "_" f) eqn:Hu; destruct (has_char "-" f) eqn:Hh;
    try discriminate U.
  - (* underscores only *)
    apply (aliased_insert_pair m (upper f) (upper (hy f)) t); trivial.
    + rewrite <- upper_us. unfold us. now rewrite replace_absent.
    + now rewrite upper_hy.
  - (* hyphens only *)
    apply (aliased_insert_pair m (upper (us f)) (upper f) t); trivial.
    + now rewrite <- upper_us, us_us.
    + rewrite <- upper_hy, hy_us. unfold hy. now rewrite replace_absent.
  - (* no separator *)
    rewrite <- (insert_insert_eq m (upper f) t t).
    apply (aliased_insert_pair m (upper f) (upper f) t); trivial.
    + rewrite <- upper_us. unfold us. now rewrite replace_absent.
    + rewrite <- upper_hy. unfold hy. now rewrite replace_absent.
Qed.

Lemma fold_store_row_aliased rows m :
  forallb row_unmixed rows = true -> aliased m ->
  aliased (fold_left store_row rows m).
Proof.
  revert m. induction rows as [|row rows IH]; intros m U Hm; [exact Hm|].
  simpl in U. apply andb_true_iff in U as [U1 U2].
  simpl. apply IH; [exact U2|]. now apply store_row_aliased.
Qed.

Lemma load_file_aliased file m :
  file_unmixed file = true -> aliased m ->
  aliased (_load_column_types_from_file file m).
Proof.
  destruct file as [[|header rows]|]; simpl; intros U Hm; try exact Hm.
  now apply fold_store_row_aliased.
Qed.

Lemma load_files_aliased files m :
  forallb file_unmixed files = true -> aliased m ->
  aliased (load_files files m).
Proof.
  unfold load_files. revert m.
  induction files as [|file files IH]; intros m U Hm; [exact Hm|].
  simpl in U. apply andb_true_iff in U as [U1 U2].
  simpl. apply IH; [exact U2|]. now apply load_file_aliased.
Qed.

Lemma load_sources_read zip_specific main_dir :
  load_sources zip_specific main_dir
  = load_files (read_files zip_specific main_dir) ∅.
Proof.
  unfold load_sources, read_files, _load_column_types_from_main_dir.
  destruct zip_specific as [zs|]; [|reflexivity].
  match goal with |- context [if ?c then _ else _] => destruct c end;
    reflexivity.
Qed.

Lemma load_sources_aliased zip_specific main_dir :
  sources_unmixed zip_specific main_dir = true ->
  aliased (load_sources zip_specific main_dir).
Proof.
  intros U. rewrite load_sources_read.
  apply load_files_aliased; [exact U | apply aliased_empty].
Qed.

Lemma ensure_join_fields_aliased m :
  aliased m -> aliased (ensure_join_fields m).
Proof.
  intros Hm. unfold ensure_join_fields.
  destruct (m !! "CU_NUMBER") as [t|]; [|exact Hm].
  destruct (String.eqb (lower t) "int"); [|exact Hm].
  rewrite <- (insert_insert_eq _ "CUNUMBER" "int" "int").
  apply (aliased_insert_pair _ "CUNUMBER" "CUNUMBER" "int");
    [reflexivity | reflexivity |].
  apply (aliased_insert_pair m "CU_NUMBER" "CU-NUMBER" "int");
    [reflexivity | reflexivity | exact Hm].
Qed.


(** Entries are never removed while loading. *)
Lemma store_row_mono m row k :
  is_Some (m !! k) -> is_Some (store_row m row !! k).
Proof.
  intros Hk. destruct row as [|r0 [|r1 [|r2 rest]]]; try exact Hk.
  unfold store_row.
  repeat match goal with
         | |- context [if ?c then _ else _] => destruct c
         end;
    rewrite ?lookup_insert; repeat case_decide; eauto.
Qed.

Lemma fold_store_row_mono rows m k :
  is_Some (m !! k) -> is_Some (fold_left store_row rows m !! k).
Proof.
  revert m. induction rows as [|row rows IH]; intros m Hk; [exact Hk|].
  simpl. apply IH. now apply store_row_mono.
Qed.

Lemma load_file_mono file m k :
  is_Some (m !! k) -> is_Some (_load_column_types_from_file file m !! k).
Proof.
  destruct file as [[|header rows]|]; simpl; intros Hk; try exact Hk.
  now apply fold_store_row_mono.
Qed.

Lemma load_files_mono files m k :
  is_Some (m !! k) -> is_Some (load_files files m !! k).
Proof.
  unfold load_files. revert m.
  induction files as [|file files IH]; intros m Hk; [exact Hk|].
  simpl. apply IH. now apply load_file_mono.
Qed.

Lemma ensure_join_fields_mono m k :
  is_Some (m !! k) -> is_Some (ensure_join_fields m !! k).
Proof.
  intros Hk. unfold ensure_join_fields.
  destruct (m !! "CU_NUMBER") as [t|]; [|exact Hk].
  destruct (String.eqb (lower t) "int"); [|exact Hk].
  rewrite !lookup_insert; repeat case_decide; eauto.
Qed.

(** A stored row leaves an entry under the underscore spelling of its
    field name. *)
Lemma store_row_stores m r0 r1 r2 rest :
  row_unmixed (r0 :: r1 :: r2 :: rest) = true ->
  is_Some (store_row m (r0 :: r1 :: r2 :: rest)
             !! upper (us (field_name_of r0))).
Proof.
  unfold row_unmixed, mixed, store_row, field_name_of.
  set (f := strip_quote (strip r0)). rewrite !contains_char.
  destruct (has_char "_" f) eqn:Hu; destruct (has_char "-" f) eqn:Hh;
    intros U; try discriminate U.
  - unfold us. rewrite (replace_absent _ _ _ Hh).
    rewrite !lookup_insert; repeat case_decide; try congruence; eauto.
  - fold (us f).
    rewrite !lookup_insert; repeat case_decide; try congruence; eauto.
  - unfold us. rewrite (replace_absent _ _ _ Hh).
    rewrite !lookup_insert; repeat case_decide; try congruence; eauto.
Qed.

Lemma fold_store_row_stores rows m f :
  forallb row_unmixed rows = true ->
  In f (omap row_name rows) ->
  is_Some (fold_left store_row rows m !! upper (us f)).
Proof.
  revert m. induction rows as [|row rows IH]; intros m U Hf; [destruct Hf|].
  simpl in U. apply andb_true_iff in U as [U1 U2].
  simpl in *. destruct (row_name row) as [g|] eqn:Hg.
  - destruct Hf as [->|Hf]; [|now apply IH].
    apply fold_store_row_mono.
    destruct row as [|r0 [|r1 [|r2 rest]]]; try discriminate Hg.
    injection Hg as <-. now apply store_row_stores.
  - now apply IH.
Qed.

Lemma load_files_stores files m f :
  forallb file_unmixed files = true ->
  In f (concat (map file_names files)) ->
  is_Some (load_files files m !! upper (us f)).
Proof.
  revert m.
  induction files as [|file files IH]; intros m U Hf; [destruct Hf|].
  simpl in U. apply andb_true_iff in U as [U1 U2].
  simpl in Hf. apply in_app_or in Hf as [Hf|Hf].
  - change (load_files (file :: files) m)
      with (load_files files (_load_column_types_from_file file m)).
    apply load_files_mono.
    destruct file as [[|header rows]|]; try destruct Hf.
    simpl. now apply fold_store_row_stores.
  - change (load_files (file :: files) m)
      with (load_files files (_load_column_types_from_file file m)).
    now apply IH.
Qed.

Lemma strip_upper s : strip (upper s) = upper (strip s).
Proof.
  unfold strip, upper. apply strip_by_map.
  intros [[] [] [] [] [] [] [] []]; reflexivity.
Qed.

End CatalogueFacts.

(** ** Claims about the catalogue and the catalogue-driven resolver *)
Section CatalogueClaims.
Import PyStr Catalogue Vocabulary Examples.

Lemma critical_join_fields_cases x t :
  critical_join_fields !! x = Some t ->
  x = "cu_number" \/ x = "join_number" \/ x = "cycle_date".
Proof.
  unfold critical_join_fields. rewrite !lookup_insert, lookup_empty.
  intros E. repeat case_decide; auto; discriminate E.
Qed.

Lemma keyword_not_critical x :
  has_keyword x = true -> critical_join_fields !! x = None.
Proof.
  intros K. destruct (critical_join_fields !! x) as [t|] eqn:E; [|reflexivity].
  apply critical_join_fields_cases in E as [ -> | [ -> | -> ] ];
    vm_compute in K; discriminate K.
Qed.

(** C3. A column whose lower-cased name contains [phone], [fax] or
    [phonenumber] is typed TEXT by [get_sql_type_for_column], and so by
    [create_table_from_dataframe], whatever the catalogue holds and whatever
    the dtype of the column is. *)
Theorem keyword_column_is_text
    (column_type_definitions : gmap string string)
    (column_name : string) (pandas_dtype : Dtype) :
  has_keyword (lower column_name) = true ->
  get_sql_type_for_column column_type_definitions column_name pandas_dtype
    = TEXT
  /\ snd (column_definition column_type_definitions column_name pandas_dtype)
     = TEXT.
Proof.
  intros K. split.
  - unfold get_sql_type_for_column.
    rewrite (keyword_not_critical _ K). now rewrite K.
  - unfold column_definition. cbn [snd]. now rewrite K.
Qed.

Lemma keyword_column_is_text_witness :
  get_sql_type_for_column {["FAX_NO" := "int"]} "Fax_No" Int64 = TEXT
  /\ snd (column_definition {["FAX_NO" := "int"]} "Fax_No" Int64) = TEXT.
Proof.
  apply (keyword_column_is_text {["FAX_NO" := "int"]} "Fax_No" Int64).
  reflexivity.
Defined.

(** C7 as stated fails: the field name [A_B-C] is loaded, its hyphen
    spelling [A-B-C] is in the catalogue and its underscore spelling [A_B_C]
    is not. *)
Lemma mixed_name_spellings_differ :
  In "A_B-C" (loaded_names None mixed_source)
  /\ lookup (load_column_type_definitions None mixed_source)
            (underscore_spelling "A_B-C") = None
  /\ lookup (load_column_type_definitions None mixed_source)
            (hyphen_spelling "A_B-C") = Some "int".
Proof.
  split; [left; reflexivity|]. split; vm_compute; reflexivity.
Qed.

(** C7 (amended). When no field name of the description files read contains
    both an underscore and a hyphen, looking a name up under its underscore
    spelling and under its hyphen spelling gives the same answer; and for a
    loaded field name without surrounding white space that answer is a
    declared type. *)
Theorem alias_spellings_agree
    (zip_specific : option (list DescFile)) (main_dir : list DescFile) :
  sources_unmixed zip_specific main_dir = true ->
  (forall column_name,
      lookup (load_column_type_definitions zip_specific main_dir)
             (underscore_spelling column_name)
      = lookup (load_column_type_definitions zip_specific main_dir)
               (hyphen_spelling column_name))
  /\ (forall field_name,
         In field_name (loaded_names zip_specific main_dir) ->
         strip field_name = field_name ->
         exists declared,
           lookup (load_column_type_definitions zip_specific main_dir)
                  (underscore_spelling field_name) = Some declared
           /\ lookup (load_column_type_definitions zip_specific main_dir)
                     (hyphen_spelling field_name) = Some declared).
Proof.
  intros U.
  assert (A : aliased (load_column_type_definitions zip_specific main_dir)).
  { apply ensure_join_fields_aliased. now apply load_sources_aliased. }
  assert (E : forall column_name,
             lookup (load_column_type_definitions zip_specific main_dir)
                    (underscore_spelling column_name)
             = lookup (load_column_type_definitions zip_specific main_dir)
                      (hyphen_spelling column_name)).
  { intros n. unfold lookup.
    rewrite upper_us, strip_us, upper_hy, strip_hy. apply A. }
  split; [exact E|].
  intros f Hf Hs.
  assert (P : is_Some (lookup (load_column_type_definitions zip_specific main_dir)
                              (underscore_spelling f))).
  { unfold lookup. rewrite strip_upper, strip_us, Hs.
    apply ensure_join_fields_mono. rewrite load_sources_read.
    now apply load_files_stores. }
  destruct P as [t Ht]. exists t. split; [exact Ht|]. now rewrite <- E.
Qed.

Lemma alias_spellings_agree_witness :
  lookup (load_column_type_definitions None plain_source)
         (underscore_spelling "acct-010")
  = lookup (load_column_type_definitions None plain_source)
           (hyphen_spelling "acct-010").
Proof.
  apply (proj1 (alias_spellings_agree None plain_source eq_refl)).
Defined.

(** C8 as stated fails: with [CU_NUMBER] declared [varchar] the join-key
    step changes nothing; the catalogue keeps [varchar] for [CU_NUMBER] and
    [CU-NUMBER], has no [CUNUMBER], and a column named [CU-NUMBER] is typed
    TEXT. *)
Lemma join_key_kept_as_declared :
  load_column_type_definitions None varchar_source !! "CU_NUMBER"
    = Some "varchar"
  /\ load_column_type_definitions None varchar_source !! "CU-NUMBER"
     = Some "varchar"
  /\ load_column_type_definitions None varchar_source !! "CUNUMBER" = None
  /\ get_sql_type_for_column
       (load_column_type_definitions None varchar_source) "CU-NUMBER" Int64
     = TEXT.
Proof. repeat split; vm_compute; reflexivity. Qed.

Lemma get_sql_type_from_catalogue
    (column_type_definitions : gmap string string) column_name dtype declared :
  critical_join_fields !! lower column_name = None ->
  has_keyword (lower column_name) = false ->
  column_type_definitions !! strip (upper column_name) = Some declared ->
  get_sql_type_for_column column_type_definitions column_name dtype
  = map_ncua_type (lower declared).
Proof.
  intros C K L. unfold get_sql_type_for_column, lookup. now rewrite C, K, L.
Qed.

(** C8 (amended). When the files read declare [CU_NUMBER] with the type
    [int] in any letter case, the join-key step sets [CU_NUMBER],
    [CU-NUMBER] and [CUNUMBER] to [int], and a column under any of these
    spellings is typed INTEGER. Whatever the catalogue holds, a column whose
    lower-cased name is [cu_number] or [join_number] is typed INTEGER. *)
Theorem join_key_forced_when_int
    (zip_specific : option (list DescFile)) (main_dir : list DescFile)
    (declared : string) (pandas_dtype : Dtype) :
  load_sources zip_specific main_dir !! "CU_NUMBER" = Some declared ->
  lower declared = "int" ->
  (Forall (fun key =>
             load_column_type_definitions zip_specific main_dir !! key
             = Some "int")
          ["CU_NUMBER"; "CU-NUMBER"; "CUNUMBER"])
  /\ (Forall (fun column_name =>
                get_sql_type_for_column
                  (load_column_type_definitions zip_specific main_dir)
                  column_name pandas_dtype = INTEGER)
             ["CU_NUMBER"; "CU-NUMBER"; "CUNUMBER";
              "cu_number"; "cu-number"; "cunumber"])
  /\ (forall (column_type_definitions : gmap string string) column_name,
         lower column_name = "cu_number" \/ lower column_name = "join_number" ->
         get_sql_type_for_column column_type_definitions column_name
                                 pandas_dtype = INTEGER).
Proof.
  intros L I.
  assert (K : Forall (fun key =>
                        load_column_type_definitions zip_specific main_dir
                          !! key = Some "int")
                     ["CU_NUMBER"; "CU-NUMBER"; "CUNUMBER"]).
  { unfold load_column_type_definitions, ensure_join_fields.
    rewrite L, I. cbn [String.eqb Ascii.eqb Bool.eqb].
    repeat constructor; rewrite !lookup_insert;
      repeat case_decide; try reflexivity; congruence. }
  split; [exact K|].
  inversion K as [|? ? K1 K']; subst.
  inversion K' as [|? ? K2 K'']; subst.
  inversion K'' as [|? ? K3 _]; subst.
  split.
  - assert (C : forall (m : gmap string string) n,
               lower n = "cu_number" ->
               get_sql_type_for_column m n pandas_dtype = INTEGER).
    { intros m n E. unfold get_sql_type_for_column. now rewrite E. }
    assert (G : forall n key,
               critical_join_fields !! lower n = None ->
               has_keyword (lower n) = false ->
               strip (upper n) = key ->
               load_column_type_definitions zip_specific main_dir !! key
               = Some "int" ->
               get_sql_type_for_column
                 (load_column_type_definitions zip_specific main_dir)
                 n pandas_dtype = INTEGER).
    { intros n key Hc Hk <- Hl.
      now rewrite (get_sql_type_from_catalogue _ _ _ _ Hc Hk Hl). }
    repeat first [apply List.Forall_nil | apply List.Forall_cons].
    + now apply C.
    + now apply (G _ "CU-NUMBER").
    + now apply (G _ "CUNUMBER").
    + now apply C.
    + now apply (G _ "CU-NUMBER").
    + now apply (G _ "CUNUMBER").
  - intros m n [E|E]; unfold get_sql_type_for_column; rewrite E; reflexivity.
Qed.

Lemma join_key_forced_when_int_witness :
  load_column_type_definitions None plain_source !! "CU-NUMBER" = Some "int".
Proof.
  pose proof (join_key_forced_when_int None plain_source "int" Int64
                eq_refl eq_refl) as [K _].
  inversion K as [|? ? _ K']. inversion K' as [|? ? K2 _]. exact K2.
Defined.

End CatalogueClaims.

(** ** Facts about frames and the column decision *)
Section PandasFacts.
Import PyStr Pandas Processor Vocabulary.

Lemma filter_label_absent (l : list (string * Series)) col :
  ~ In col (map fst l) ->
  List.filter (fun c => String.eqb (fst c) col) l = [].
Proof.
  induction l as [|[k v] l IH]; simpl; intros N; [reflexivity|].
  destruct (String.eqb_spec k col) as [->|Hne].
  - exfalso. apply N. now left.
  - apply IH. intros H. apply N. now right.
Qed.

Lemma filter_label_unique (l : list (string * Series)) col s :
  List.NoDup (map fst l) -> In (col, s) l ->
  List.filter (fun c => String.eqb (fst c) col) l = [(col, s)].
Proof.
  induction l as [|[k v] l IH]; simpl; intros D H; [destruct H|].
  inversion D as [|? ? Hk D']; subst.
  destruct H as [E|H].
  - injection E as -> ->. rewrite String.eqb_refl.
    now rewrite filter_label_absent.
  - destruct (String.eqb_spec k col) as [->|Hne].
    + exfalso. apply Hk. apply in_map_iff. now exists (col, s).
    + now apply IH.
Qed.

Lemma getitem_unique df col s :
  List.NoDup (labels df) -> In (col, s) (columns df) ->
  getitem df col = SelSeries s.
Proof.
  intros D H. unfold getitem. now rewrite (filter_label_unique _ col s D H).
Qed.

Lemma dropna_In cells v : In (Some v) cells -> In v (dropna cells).
Proof.
  unfold dropna. induction cells as [|[w|] cells IH]; simpl; intros H.
  - destruct H.
  - destruct H as [E|H]; [injection E as ->; now left | right; now apply IH].
  - destruct H as [E|H]; [discriminate E | now apply IH].
Qed.

Lemma dropna_all_null cells :
  Forall (fun c => c = None) cells -> dropna cells = [].
Proof.
  unfold dropna. induction 1 as [|c cells -> _ IH]; simpl; [reflexivity|].
  exact IH.
Qed.

(** A successful reduction started on an integer saw integers only and
    returns a bound on them. *)
Lemma reduce_max_int a vs m :
  reduce_max (VInt a) vs = Ok m ->
  exists mz, m = VInt mz /\ a <= mz /\
             forall v, In v vs -> exists x, v = VInt x /\ x <= mz.
Proof.
  revert a. induction vs as [|v vs IH]; intros a H.
  - injection H as <-. exists a. repeat split; [lia | intros v []].
  - destruct v as [x|t]; [|discriminate H].
    cbn in H. destruct (Z.ltb_spec a x) as [L|L];
      apply IH in H as (mz & -> & B & A); exists mz;
      (split; [reflexivity|]); (split; [lia|]);
      intros v [<-|Hv]; eauto; exists x; split; [reflexivity | lia].
Qed.

Lemma reduce_min_int a vs m :
  reduce_min (VInt a) vs = Ok m ->
  exists mz, m = VInt mz /\ mz <= a /\
             forall v, In v vs -> exists x, v = VInt x /\ mz <= x.
Proof.
  revert a. induction vs as [|v vs IH]; intros a H.
  - injection H as <-. exists a. repeat split; [lia | intros v []].
  - destruct v as [x|t]; [|discriminate H].
    cbn in H. destruct (Z.ltb_spec x a) as [L|L];
      apply IH in H as (mz & -> & B & A); exists mz;
      (split; [reflexivity|]); (split; [lia|]);
      intros v [<-|Hv]; eauto; exists x; split; [reflexivity | lia].
Qed.

(** Started on a text, it saw texts only and returns a text. *)
Lemma reduce_max_str a vs m :
  reduce_max (VStr a) vs = Ok m ->
  (exists t, m = VStr t) /\ forall v, In v vs -> exists t, v = VStr t.
Proof.
  revert a. induction vs as [|v vs IH]; intros a H.
  - injection H as <-. split; [eauto | intros v []].
  - destruct v as [x|t]; [discriminate H|].
    cbn in H. destruct (String.ltb a t);
      apply IH in H as [M A]; (split; [exact M|]);
      intros v [<-|Hv]; eauto.
Qed.

Lemma reduce_min_str a vs m :
  reduce_min (VStr a) vs = Ok m ->
  (exists t, m = VStr t) /\ forall v, In v vs -> exists t, v = VStr t.
Proof.
  revert a. induction vs as [|v vs IH]; intros a H.
  - injection H as <-. split; [eauto | intros v []].
  - destruct v as [x|t]; [discriminate H|].
    cbn in H. destruct (String.ltb t a);
      apply IH in H as [M A]; (split; [exact M|]);
      intros v [<-|Hv]; eauto.
Qed.

End PandasFacts.

(** ** The integer branch *)
Section IntegerBranch.
Import PyStr Pandas Processor Vocabulary Specs.

Lemma series_max_int vs c z :
  series_max vs = Ok c -> In (VInt z) vs ->
  (exists mz, c = Some (VInt mz) /\ z <= mz)
  /\ forall v, In v vs -> exists x, v = VInt x.
Proof.
  destruct vs as [|v0 vs]; intros H Hz; [destruct Hz|].
  cbn in H. destruct (reduce_max v0 vs) as [m|e] eqn:R; [|discriminate H].
  injection H as <-. destruct v0 as [a|t].
  - apply reduce_max_int in R as (mz & -> & B & A). split.
    + exists mz. split; [reflexivity|].
      destruct Hz as [E|Hz]; [injection E as <-; lia|].
      destruct (A _ Hz) as (x & E & L). injection E as <-. lia.
    + intros v [<-|Hv]; eauto. destruct (A _ Hv) as (x & E & _). eauto.
  - apply reduce_max_str in R as [_ A].
    destruct Hz as [E|Hz]; [discriminate E|].
    destruct (A _ Hz) as (t' & E). discriminate E.
Qed.

Lemma series_min_int vs c z :
  series_min vs = Ok c -> In (VInt z) vs ->
  exists mz, c = Some (VInt mz) /\ mz <= z.
Proof.
  destruct vs as [|v0 vs]; intros H Hz; [destruct Hz|].
  cbn in H. destruct (reduce_min v0 vs) as [m|e] eqn:R; [|discriminate H].
  injection H as <-. destruct v0 as [a|t].
  - apply reduce_min_int in R as (mz & -> & B & A).
    exists mz. split; [reflexivity|].
    destruct Hz as [E|Hz]; [injection E as <-; lia|].
    destruct (A _ Hz) as (x & E & L). injection E as <-. lia.
  - apply reduce_min_str in R as [_ A].
    destruct Hz as [E|Hz]; [discriminate E|].
    destruct (A _ Hz) as (t' & E). discriminate E.
Qed.

Lemma nonempty_length {A} (l : list A) x :
  In x l -> (0 <? length l)%nat = true.
Proof. destruct l; [intros [] | reflexivity]. Qed.

(** With a value outside the 32-bit range among the cells, the [try] block
    assigns NUMERIC unless it raises. *)
Lemma check_int_range_out_of_range s z :
  In (Some (VInt z)) (values s) -> out_of_int4 z ->
  check_int_range s = Ok NUMERIC \/ exists e, check_int_range s = Raise e.
Proof.
  intros Hin Hz. apply dropna_In in Hin. unfold check_int_range.
  rewrite (nonempty_length _ _ Hin).
  destruct (series_max (dropna (values s))) as [mx|e] eqn:Mx;
    [|right; eauto].
  destruct (series_min (dropna (values s))) as [mn|e] eqn:Mn;
    [|right; eauto].
  destruct (series_max_int _ _ _ Mx Hin) as [(hi & -> & Hhi) _].
  destruct (series_min_int _ _ _ Mn Hin) as (lo & -> & Hlo).
  left. cbn. destruct Hz as [Hz|Hz].
  - destruct (Z.ltb_spec 2147483647 hi); [reflexivity | lia].
  - destruct (Z.ltb_spec 2147483647 hi); [reflexivity|].
    cbn. destruct (Z.ltb_spec lo (-2147483648)); [reflexivity | lia].
Qed.

Lemma check_int_range_all_null s :
  Forall (fun c => c = None) (values s) -> check_int_range s = Ok INTEGER.
Proof.
  intros H. unfold check_int_range. now rewrite (dropna_all_null _ H).
Qed.

(** The reductions over integers within bounds succeed within the
    bounds. *)
Lemma reduce_max_bounded lo hi vs a :
  Forall (fun v => exists x, v = VInt x /\ lo <= x <= hi) vs ->
  lo <= a <= hi ->
  exists mz, reduce_max (VInt a) vs = Ok (VInt mz) /\ lo <= mz <= hi.
Proof.
  intros F. revert a. induction F as [|v vs (x & -> & Hx) _ IH]; intros a Ha.
  - exists a. split; [reflexivity | exact Ha].
  - cbn. destruct (Z.ltb a x); now apply IH.
Qed.

Lemma reduce_min_bounded lo hi vs a :
  Forall (fun v => exists x, v = VInt x /\ lo <= x <= hi) vs ->
  lo <= a <= hi ->
  exists mz, reduce_min (VInt a) vs = Ok (VInt mz) /\ lo <= mz <= hi.
Proof.
  intros F. revert a. induction F as [|v vs (x & -> & Hx) _ IH]; intros a Ha.
  - exists a. split; [reflexivity | exact Ha].
  - cbn. destruct (Z.ltb x a); now apply IH.
Qed.

Lemma dropna_in_int4 cells :
  Forall in_int4 cells ->
  Forall (fun v => exists x, v = VInt x
                             /\ -2147483648 <= x <= 2147483647)
         (dropna cells).
Proof.
  unfold dropna. induction 1 as [|c cells Hc _ IH]; cbn; [constructor|].
  destruct c as [[z|t]|]; cbn in Hc |- *; [|destruct Hc|exact IH].
  constructor; [eauto | exact IH].
Qed.

Lemma check_int_range_in_range s :
  Forall in_int4 (values s) -> check_int_range s = Ok INTEGER.
Proof.
  intros F. apply dropna_in_int4 in F. unfold check_int_range.
  destruct (dropna (values s)) as [|v vs]; [reflexivity|].
  inversion F as [|? ? (a & -> & Ha) F']; subst.
  cbn [length Nat.ltb Nat.leb series_max series_min].
  destruct (reduce_max_bounded _ _ vs a F' Ha) as (hi & -> & Hhi).
  destruct (reduce_min_bounded _ _ vs a F' Ha) as (lo & -> & Hlo).
  cbn. destruct (Z.ltb_spec 2147483647 hi); [lia|].
  cbn. destruct (Z.ltb_spec lo (-2147483648)); [lia | reflexivity].
Qed.

(** An integer column holds integers once the missing values are
    dropped, and the reductions over integers return an integer. *)
Lemma dropna_integer cells :
  forallb integer_cell cells = true ->
  Forall (fun v => exists x, v = VInt x) (dropna cells).
Proof.
  unfold dropna. induction cells as [|c cells IH]; cbn; intros H;
    [constructor|].
  apply andb_true_iff in H as [Hc H].
  destruct c as [[z|t]|]; cbn in Hc |- *; [|discriminate Hc|now apply IH].
  constructor; [eauto | now apply IH].
Qed.

Lemma reduce_max_ints a vs :
  Forall (fun v => exists x, v = VInt x) vs ->
  exists mz, reduce_max (VInt a) vs = Ok (VInt mz).
Proof.
  intros F. revert a. induction F as [|v vs (x & ->) _ IH]; intros a.
  - now exists a.
  - cbn. destruct (Z.ltb a x); apply IH.
Qed.

Lemma reduce_min_ints a vs :
  Forall (fun v => exists x, v = VInt x) vs ->
  exists mz, reduce_min (VInt a) vs = Ok (VInt mz).
Proof.
  intros F. revert a. induction F as [|v vs (x & ->) _ IH]; intros a.
  - now exists a.
  - cbn. destruct (Z.ltb x a); apply IH.
Qed.

(** On an integer column the [try] block does not raise. *)
Lemma check_int_range_integer s :
  integer_column s = true ->
  check_int_range s = Ok INTEGER \/ check_int_range s = Ok NUMERIC.
Proof.
  intros H. apply dropna_integer in H. unfold check_int_range.
  destruct (dropna (values s)) as [|v vs]; [now left|].
  inversion H as [|? ? (a & ->) F]; subst.
  cbn [length Nat.ltb Nat.leb series_max series_min].
  destruct (reduce_max_ints a vs F) as (hi & ->).
  destruct (reduce_min_ints a vs F) as (lo & ->).
  cbn. destruct (2147483647 <? hi); [now right|].
  cbn. destruct (lo <? -2147483648); [now right | now left].
Qed.

(** The values of an integer column all lie within the signed 32-bit
    range, or one of them lies outside. *)
Lemma integer_cells_range cells :
  forallb integer_cell cells = true ->
  Forall in_int4 cells
  \/ exists z, In (Some (VInt z)) cells /\ out_of_int4 z.
Proof.
  induction cells as [|c cells IH]; cbn [forallb]; intros H;
    [left; constructor|].
  apply andb_true_iff in H as [Hc H].
  destruct (IH H) as [F|(z & Hz & O)];
    [|right; exists z; split; [now right | exact O]].
  destruct c as [[z|t]|]; [|discriminate Hc|left; now constructor].
  destruct (Z.ltb_spec 2147483647 z) as [L|L];
    [right; exists z; split; [now left | now left]|].
  destruct (Z.ltb_spec z (-2147483648)) as [L'|L'];
    [right; exists z; split; [now left | now right]|].
  left. constructor; [cbn; lia | exact F].
Qed.


(** The loop returns when every label it visits selects a series, and then
    types the k-th column by the column decision. *)
Lemma schema_loop_ok large df cols column_index :
  (forall col, In col cols -> exists s, getitem df col = SelSeries s) ->
  exists plan,
    schema_loop large df cols column_index = Ok plan
    /\ forall k col s,
         cols !! k = Some col -> getitem df col = SelSeries s ->
         exists name, plan !! k = Some (name, column_sql_type large s).
Proof.
  revert column_index.
  induction cols as [|col cols IH]; intros column_index H.
  - exists []. split; [reflexivity|]. intros k c s Hk. discriminate Hk.
  - cbn [schema_loop].
    destruct (unique_name column_index (clean_name col)) as [name idx].
    destruct (H col (or_introl eq_refl)) as [s Hs]. rewrite Hs.
    destruct (IH idx (fun c Hc => H c (or_intror Hc))) as (plan & -> & P).
    exists ((name, column_sql_type large s) :: plan). split; [reflexivity|].
    intros [|k] c s' Hk Hc; cbn in Hk |- *.
    + injection Hk as <-. rewrite Hs in Hc. injection Hc as <-. eauto.
    + eauto.
Qed.

Lemma labels_lookup df k col s :
  columns df !! k = Some (col, s) -> labels df !! k = Some col.
Proof.
  intros H. unfold labels.
  change (map fst (columns df)) with (fst <$> columns df).
  rewrite list_lookup_fmap, H. reflexivity.
Qed.

(** With pairwise distinct labels schema generation returns, and the k-th
    entry of its plan is the decision for the k-th column. *)
Lemma schema_columns_ok df table_name :
  List.NoDup (labels df) ->
  exists plan,
    schema_columns df table_name = Ok plan
    /\ forall k col s,
         columns df !! k = Some (col, s) ->
         exists name,
           plan !! k
           = Some (name, column_sql_type (has_large_numbers table_name) s).
Proof.
  intros D. unfold schema_columns.
  destruct (schema_loop_ok (has_large_numbers table_name) df (labels df) ∅)
    as (plan & E & P).
  - intros col Hc. apply in_map_iff in Hc as ([c s] & <- & Hin).
    exists s. now apply getitem_unique.
  - exists plan. split; [exact E|]. intros k col s Hk.
    apply (P k col s); [now apply (labels_lookup df k col s)|].
    apply getitem_unique; [exact D|].
    apply list_elem_of_In. now apply (list_elem_of_lookup_2 _ k).
Qed.

End IntegerBranch.

(** ** Claims about the extract-driven resolver *)
Section ResolverClaims.
Import PyStr Catalogue Pandas Processor Vocabulary Specs Examples.




(** C9 as stated fails: an integer column whose values are all missing is
    typed INTEGER, not NUMERIC. *)
Lemma all_null_integer_column_is_integer :
  Forall (fun c => c = None)
         (values (series Int64Arrow [None; None]))
  /\ schema_columns all_null_frame "loans_2024_03" = Ok [("n", INTEGER)].
Proof. split; [repeat constructor | vm_compute; reflexivity]. Qed.

(** C9 (amended). Outside the large-number tables, for a column whose dtype
    name contains [int] and whose cells are integers or missing: the [try]
    block that computes and compares the minimum and maximum does not raise,
    schema generation returns, and the column is typed NUMERIC exactly when
    one of its values lies outside the signed 32-bit range and INTEGER
    otherwise; a column without any value is typed INTEGER. *)
Theorem integer_column_fallback
    (df : DataFrame) (table_name : string) (k : nat) (col : string)
    (s : Series) :
  List.NoDup (labels df) ->
  has_large_numbers table_name = false ->
  columns df !! k = Some (col, s) ->
  contains "int" (dtype_str (dtype s)) = true ->
  integer_column s = true ->
  exists plan name sql_type,
    schema_columns df table_name = Ok plan
    /\ plan !! k = Some (name, sql_type)
    /\ check_int_range s = Ok sql_type
    /\ (Forall (fun c => c = None) (values s) -> sql_type = INTEGER)
    /\ (sql_type = NUMERIC
        <-> exists z, In (Some (VInt z)) (values s) /\ out_of_int4 z)
    /\ (sql_type = INTEGER <-> Forall in_int4 (values s)).
Proof.
  intros D Hl Hk Hd Hi.
  destruct (schema_columns_ok df table_name D) as (plan & E & P).
  destruct (P k col s Hk) as [name Hn].
  rewrite Hl in Hn. unfold column_sql_type in Hn. rewrite Hd in Hn.
  assert (N : forall z, In (Some (VInt z)) (values s) -> out_of_int4 z ->
                check_int_range s = Ok NUMERIC).
  { intros z Hz O.
    destruct (check_int_range_out_of_range s z Hz O) as [R|[e R]];
      [exact R|].
    destruct (check_int_range_integer s Hi) as [R'|R'];
      rewrite R' in R; discriminate R. }
  destruct (integer_cells_range (values s) Hi) as [F|(z & Hz & O)].
  - pose proof (check_int_range_in_range s F) as R. rewrite R in Hn.
    exists plan, name, INTEGER.
    split; [exact E|]. split; [exact Hn|]. split; [exact R|].
    split; [reflexivity|]. split; [split|split]; try tauto; try discriminate.
    intros (z & Hz & O). rewrite (N z Hz O) in R. discriminate R.
  - pose proof (N z Hz O) as R. rewrite R in Hn.
    exists plan, name, NUMERIC.
    split; [exact E|]. split; [exact Hn|]. split; [exact R|].
    split; [|split; [split|split]]; try discriminate; eauto.
    + intros A. rewrite (check_int_range_all_null s A) in R. discriminate R.
    + intros F. rewrite (check_int_range_in_range s F) in R. discriminate R.
Qed.

Lemma integer_column_fallback_witness :
  exists plan name,
    schema_columns wide_frame "loans_2024_03" = Ok plan
    /\ plan !! 0%nat = Some (name, NUMERIC)
    /\ check_int_range
         (series Int64Arrow
                 [Some (VInt 7); None; Some (VInt (-3000000000))])
       = Ok NUMERIC.
Proof.
  destruct (integer_column_fallback wide_frame "loans_2024_03" 0 "n"
              (series Int64Arrow
                      [Some (VInt 7); None; Some (VInt (-3000000000))]))
    as (plan & name & sql_type & E & Hn & R & _ & T & _).
  - repeat constructor. intros [].
  - reflexivity.
  - reflexivity.
  - reflexivity.
  - reflexivity.
  - assert (Q : sql_type = NUMERIC).
    { apply T. exists (-3000000000). split.
      - right. right. left. reflexivity.
      - right. reflexivity. }
    subst sql_type. exists plan, name. repeat split; assumption.
Defined.

(** C6: the code at its failing inputs. Called on the labels [amt], [Amt],
    [amt_1], [_generate_schema] gives the second column the identifier
    [amt_1], which the third column also receives. And for a file whose
    header is [amt,Amt], [_process_file] cleans both labels to [amt],
    [_generate_schema] raises on [df[col].dtype], and the fall-back schema
    names the column [amt] twice. Labels that differ only by case are the
    case the suffix does resolve. *)
Theorem suffixed_identifier_collides :
  schema_columns collide_frame "loans_2024_03"
    = Ok [("amt", INTEGER); ("amt_1", INTEGER); ("amt_1", INTEGER)]
  /\ _generate_schema (rename_columns (df case_file)) "loans_2024_03"
     = Raise AttributeError
  /\ process_file_schema case_file
     = Ok ("loans_2024_03",
           "CREATE TABLE IF NOT EXISTS loans_2024_03 (id SERIAL PRIMARY KEY, amt TEXT, amt TEXT);")
  /\ schema_columns case_frame "loans_2024_03"
     = Ok [("amt", INTEGER); ("amt_1", INTEGER); ("amt_2", INTEGER)].
Proof. repeat split; vm_compute; reflexivity. Qed.

End ResolverClaims.

(** ** From a parsed file to its schema *)
Section SchemaStage.
Import PyStr Pandas Processor Vocabulary Examples.

Lemma append_assoc' (a b c : string) : (a +:+ b) +:+ c = a +:+ (b +:+ c).
Proof.
  induction a as [|x a IH]; [reflexivity|].
  change (String x ((a +:+ b) +:+ c) = String x (a +:+ (b +:+ c))).
  now rewrite IH.
Qed.

Lemma append_empty_r (a : string) : a +:+ "" = a.
Proof.
  induction a as [|x a IH]; [reflexivity|].
  change (String x (a +:+ "") = String x a). now rewrite IH.
Qed.

Lemma fold_text_columns names acc :
  fold_left (fun acc c => acc +:+ ", " +:+ column_text c)
            (map (fun name => (name, TEXT)) names) acc
  = acc +:+ text_columns names.
Proof.
  revert acc. induction names as [|name names IH]; intros acc;
    cbn [fold_left map text_columns fold_right].
  - now rewrite append_empty_r.
  - rewrite IH. unfold column_text. cbn [fst snd sql_name].
    rewrite !append_assoc'. reflexivity.
Qed.

(** The fall-back schema is the all-text schema over the cleaned labels of
    the frame. *)
Lemma simple_schema_degraded df table_name :
  simple_schema df table_name
  = degraded_schema table_name (map clean_name (labels df)).
Proof.
  unfold simple_schema, simple_columns, degraded_schema.
  rewrite <- (map_map clean_name (fun name => (name, TEXT))).
  rewrite fold_text_columns. rewrite !append_assoc'. reflexivity.
Qed.

(** The clean-up of the text columns keeps the labels. *)
Lemma filter_label_map (g : string * Series -> string * Series) l c :
  (forall x, fst (g x) = fst x) ->
  length (List.filter (fun x => String.eqb (fst x) c) (map g l))
  = length (List.filter (fun x => String.eqb (fst x) c) l).
Proof.
  intros G. induction l as [|x l IH]; [reflexivity|].
  cbn [map List.filter]. rewrite G.
  destruct (String.eqb (fst x) c); cbn [length]; now rewrite IH.
Qed.

Lemma setitem_with_label_count f df col c :
  label_count (setitem_with f df col) c = label_count df c.
Proof.
  unfold label_count, setitem_with. cbn [columns].
  apply filter_label_map. intros x.
  destruct (String.eqb (fst x) col); reflexivity.
Qed.

Lemma getitem_count_one df col :
  label_count df col = 1%nat -> exists s, getitem df col = SelSeries s.
Proof.
  unfold label_count, getitem.
  destruct (List.filter _ (columns df)) as [|c [|c' l]]; try discriminate.
  eauto.
Qed.

Lemma clean_object_columns_ok is_branch_info cols df :
  forallb (fun col => (label_count df col =? 1)%nat) cols = true ->
  exists df', clean_object_columns is_branch_info cols df = Ok df'.
Proof.
  revert df. induction cols as [|col cols IH]; intros df H; [eauto|].
  cbn in H. apply andb_true_iff in H as [H1 H2].
  apply Nat.eqb_eq in H1. destruct (getitem_count_one df col H1) as [s Hs].
  cbn [clean_object_columns]. rewrite Hs. apply IH.
  apply forallb_forall. intros c Hc.
  rewrite setitem_with_label_count.
  now apply (proj1 (forallb_forall _ _) H2).
Qed.

(** The guards and the clean-up let a file through when it has a row, a
    column, and no text column sharing its cleaned label. *)
Lemma prepare_ok pf :
  (0 < nrows (df pf))%nat -> columns (df pf) <> [] ->
  object_labels_unique (rename_columns (df pf)) = true ->
  exists table_name df', prepare pf = Ok (table_name, df').
Proof.
  intros R C U. unfold prepare.
  destruct (Nat.eqb_spec (nrows (df pf)) 0) as [E|_]; [lia|].
  destruct (columns (df pf)) as [|c l] eqn:Ec; [congruence|]. cbn [length Nat.eqb].
  destruct (clean_object_columns_ok
              (contains "branch" (lower (file pf)))
              (select_dtypes is_object (rename_columns (df pf)))
              (rename_columns (df pf)) U) as [df' ->].
  cbn. eauto.
Qed.

(** The row guard of [_process_file] comes before schema resolution: a
    file without data rows is rejected there. *)
Lemma zero_row_extract_aborts :
  nrows (df empty_file) = 0%nat
  /\ process_file_schema empty_file
     = Raise (Exception_ "File contains no data rows").
Proof. split; reflexivity. Qed.

(** The loop of [_generate_schema] returns only when every label it visits
    selects a single column, and raises nothing but [AttributeError] on the
    labels of the frame. *)
Lemma schema_loop_returns large df cols column_index plan :
  schema_loop large df cols column_index = Ok plan ->
  forall col, In col cols -> label_count df col = 1%nat.
Proof.
  revert column_index plan.
  induction cols as [|c cols IH]; intros column_index plan H col Hc;
    [destruct Hc|].
  cbn [schema_loop] in H.
  destruct (unique_name column_index (clean_name c)) as [name idx].
  unfold getitem in H. unfold label_count.
  destruct Hc as [<-|Hc].
  - destruct (List.filter _ (columns df)) as [|c0 [|c1 l]];
      [discriminate H | reflexivity | discriminate H].
  - destruct (List.filter (fun c0 => String.eqb (fst c0) c) (columns df))
      as [|c0 [|c1 l]]; [discriminate H| |discriminate H].
    destruct (schema_loop large df cols idx) as [rest|e] eqn:R;
      [|discriminate H].
    apply (IH idx rest R col Hc).
Qed.

Lemma schema_loop_raises large df cols column_index e :
  (forall col, In col cols -> In col (labels df)) ->
  schema_loop large df cols column_index = Raise e -> e = AttributeError.
Proof.
  revert column_index.
  induction cols as [|c cols IH]; intros column_index S H;
    [discriminate H|].
  cbn [schema_loop] in H.
  destruct (unique_name column_index (clean_name c)) as [name idx].
  unfold getitem in H.
  destruct (List.filter (fun c0 => String.eqb (fst c0) c) (columns df))
    as [|c0 [|c1 l]] eqn:F.
  - exfalso. assert (Hc : In c (labels df)) by (apply S; now left).
    apply in_map_iff in Hc as (x & Hx & Hin).
    assert (Hf : In x (List.filter (fun c0 => String.eqb (fst c0) c)
                                   (columns df))).
    { apply filter_In. split; [exact Hin|]. rewrite Hx.
      apply String.eqb_refl. }
    rewrite F in Hf. destruct Hf.
  - destruct (schema_loop large df cols idx) as [rest|e'] eqn:R;
      [discriminate H|].
    cbn in H. injection H as <-.
    apply (IH idx (fun col Hc => S col (or_intror Hc)) R).
  - now injection H as <-.
Qed.

Lemma schema_loop_length large df cols column_index plan :
  schema_loop large df cols column_index = Ok plan ->
  length plan = length cols.
Proof.
  revert column_index plan.
  induction cols as [|c cols IH]; intros column_index plan H.
  - now injection H as <-.
  - cbn [schema_loop] in H.
    destruct (unique_name column_index (clean_name c)) as [name idx].
    destruct (getitem df c); try discriminate H.
    destruct (schema_loop large df cols idx) as [rest|e] eqn:R;
      [|discriminate H].
    cbn in H. injection H as <-. cbn [length]. f_equal. now apply (IH idx).
Qed.

(** Labels each carried by one column are pairwise distinct. *)
Lemma count_one_NoDup (l : list (string * Series)) :
  (forall col, In col (map fst l) ->
     length (List.filter (fun c => String.eqb (fst c) col) l) = 1%nat) ->
  List.NoDup (map fst l).
Proof.
  induction l as [|[k v] l IH]; intros H; cbn [map fst]; constructor.
  - intros Hin. pose proof (H k (or_introl eq_refl)) as Hk.
    cbn [List.filter fst] in Hk. rewrite String.eqb_refl in Hk.
    cbn [length] in Hk.
    apply in_map_iff in Hin as (x & Hx & Hin).
    assert (Hf : In x (List.filter (fun c => String.eqb (fst c) k) l)).
    { apply filter_In. split; [exact Hin|]. rewrite Hx.
      apply String.eqb_refl. }
    destruct (List.filter (fun c => String.eqb (fst c) k) l);
      [destruct Hf | discriminate Hk].
  - apply IH. intros col Hc.
    pose proof (H col (or_intror Hc)) as Hk.
    cbn [List.filter fst] in Hk.
    apply in_map_iff in Hc as (x & Hx & Hin).
    assert (Hf : In x (List.filter (fun c => String.eqb (fst c) col) l)).
    { apply filter_In. split; [exact Hin|]. rewrite Hx.
      apply String.eqb_refl. }
    destruct (String.eqb k col); cbn [length] in Hk;
      destruct (List.filter (fun c => String.eqb (fst c) col) l)
        as [|y [|z r]]; cbn [length] in Hk |- *;
      first [reflexivity | discriminate Hk | destruct Hf].
Qed.

Lemma schema_columns_raises df table_name :
  ~ List.NoDup (labels df) ->
  schema_columns df table_name = Raise AttributeError.
Proof.
  intros N. unfold schema_columns.
  destruct (schema_loop (has_large_numbers table_name) df (labels df) ∅)
    as [plan|e] eqn:R.
  - exfalso. apply N. apply count_one_NoDup. intros col Hc.
    apply (schema_loop_returns _ _ _ _ _ R col Hc).
  - f_equal. apply (schema_loop_raises _ _ _ _ e (fun _ H => H) R).
Qed.

(** C1. Schema resolution does not raise, whatever the frame holds: rows
    or none, columns without a value, columns of mixed kinds. The schema
    handed to table creation is the one [_generate_schema] returns or, when
    [_generate_schema] raises, the all-text schema over the cleaned labels
    of the same columns with the synthetic primary key. [_generate_schema]
    returns whenever the labels of the frame are pairwise distinct and
    raises [AttributeError] otherwise; and for a file that reaches
    resolution, [_process_file] goes on to table creation with that
    schema. *)
Theorem schema_resolution_degrades (df : DataFrame) (table_name : string) :
  ((exists plan,
       schema_columns df table_name = Ok plan
       /\ _generate_schema df table_name
          = Ok (render_schema table_name plan)
       /\ resolve_schema df table_name = render_schema table_name plan
       /\ resolve_columns df table_name = plan)
   \/ (exists e,
          _generate_schema df table_name = Raise e
          /\ resolve_schema df table_name
             = degraded_schema table_name (map clean_name (labels df))
          /\ resolve_columns df table_name
             = map (fun col => (clean_name col, TEXT)) (labels df)))
  /\ (List.NoDup (labels df) ->
      exists plan,
        _generate_schema df table_name = Ok (render_schema table_name plan)
        /\ length plan = length (columns df))
  /\ (~ List.NoDup (labels df) ->
      _generate_schema df table_name = Raise AttributeError)
  /\ (forall pf,
         prepare pf = Ok (table_name, df) ->
         process_file_schema pf
         = Ok (table_name, resolve_schema df table_name)).
Proof.
  split; [|split; [|split]].
  - unfold resolve_schema, resolve_columns, _generate_schema.
    destruct (schema_columns df table_name) as [plan|e]; cbn.
    + left. exists plan. repeat split; reflexivity.
    + right. exists e. split; [reflexivity|]. split; [|reflexivity].
      apply simple_schema_degraded.
  - intros D. unfold _generate_schema, schema_columns.
    destruct (schema_loop_ok (has_large_numbers table_name) df (labels df) ∅)
      as (plan & E & P).
    + intros col Hc. apply in_map_iff in Hc as ([c s] & <- & Hin).
      exists s. now apply getitem_unique.
    + exists plan. rewrite E. split; [reflexivity|].
      rewrite (schema_loop_length _ _ _ _ _ E). apply length_map.
  - intros N. unfold _generate_schema.
    now rewrite (schema_columns_raises df table_name N).
  - intros pf P. unfold process_file_schema. now rewrite P.
Qed.

Lemma schema_resolution_degrades_witness :
  process_file_schema case_file
  = Ok ("loans_2024_03",
        resolve_schema (rename_columns (df case_file)) "loans_2024_03")
  /\ _generate_schema (rename_columns (df case_file)) "loans_2024_03"
     = Raise AttributeError
  /\ exists plan,
       _generate_schema (df empty_file) "loans_2024_03"
       = Ok (render_schema "loans_2024_03" plan).
Proof.
  split; [|split].
  - apply (proj2 (proj2 (proj2
             (schema_resolution_degrades (rename_columns (df case_file))
                                         "loans_2024_03")))).
    reflexivity.
  - apply (proj1 (proj2 (proj2
             (schema_resolution_degrades (rename_columns (df case_file))
                                         "loans_2024_03")))).
    intros D. inversion D as [|? ? N _]. apply N. now left.
  - destruct (proj1 (proj2 (schema_resolution_degrades
                              (df empty_file) "loans_2024_03")))
      as (plan & E & _).
    + repeat constructor. intros [].
    + now exists plan.
Defined.

(** A frame without rows resolves like any other: its one text column is
    typed TEXT. *)
Example zero_row_frame_resolves :
  resolve_schema (df empty_file) "loans_2024_03"
  = "CREATE TABLE IF NOT EXISTS loans_2024_03 (id SERIAL PRIMARY KEY, amt TEXT);".
Proof. vm_compute. reflexivity. Qed.

End SchemaStage.

(** ** The bulk insert *)
Section InsertFacts.
Import PyStr Pandas Database Vocabulary Specs Examples.

Lemma posts_of_app i (a b : list Event) :
  posts_of i (a ++ b) = (posts_of i a + posts_of i b)%nat.
Proof. unfold posts_of. now rewrite List.filter_app, length_app. Qed.

(** One batch: the retry loop ends within three iterations, sends between
    one and three requests, all for this batch, and settles it. *)
Lemma retry_loop_batch store table_name i batch w :
  exists w' evs,
    retry_loop store table_name 3 0 i batch w = Some w'
    /\ trace w' = trace w ++ evs
    /\ (1 <= posts_of i evs <= 3)%nat
    /\ batch_settled i evs
    /\ forall j, j <> i ->
         posts_of j evs = 0%nat
         /\ ~ In (Success j) evs /\ ~ In (Failed j) evs.
Proof.
  unfold batch_settled. cbn [retry_loop Nat.ltb Nat.leb Nat.add Nat.eqb].
  unfold emit, post; cbn [sent trace].
  assert (Q : forall j, j <> i -> (j =? i)%nat = false)
    by (intros j Hj; now apply Nat.eqb_neq).
  destruct (attempt_succeeds (store (sent w)));
    [|destruct (attempt_succeeds (store (S (sent w))));
      [|destruct (attempt_succeeds (store (S (S (sent w)))))]];
    eexists; eexists; (split; [reflexivity|]); cbn [trace];
    rewrite <- ?app_assoc; cbn [app];
    (split; [reflexivity|]);
    unfold posts_of; cbn [List.filter is_post_of length];
    rewrite ?Nat.eqb_refl; cbn [length];
    (split; [lia|]);
    (split;
     [ first
         [ left; split; [cbn; tauto | cbn; intuition discriminate]
         | right; split; [cbn; tauto|]; split;
           [cbn; intuition discriminate | reflexivity] ]
     | intros j Hj; rewrite ?(Q j Hj); cbn [length]; split; [reflexivity|];
       split; cbn; intuition congruence ]).
Qed.

Lemma batch_loop_spec store table_name cleaned_records starts w :
  List.NoDup starts ->
  exists w' evs,
    batch_loop store table_name cleaned_records starts w = Some w'
    /\ trace w' = trace w ++ evs
    /\ (forall i, In i starts ->
          (1 <= posts_of i evs <= 3)%nat /\ batch_settled i evs)
    /\ (forall j, ~ In j starts ->
          posts_of j evs = 0%nat
          /\ ~ In (Success j) evs /\ ~ In (Failed j) evs).
Proof.
  revert w. induction starts as [|i starts IH]; intros w D.
  - exists w, []. cbn. rewrite app_nil_r. repeat split; tauto.
  - inversion D as [|? ? Hi D']; subst.
    destruct (retry_loop_batch store table_name i
                (slice cleaned_records i (i + batch_size)) w)
      as (w1 & evs1 & R & T1 & P1 & S1 & O1).
    destruct (IH w1 D') as (w2 & evs2 & B & T2 & P2 & O2).
    exists w2, (evs1 ++ evs2). cbn [batch_loop]. rewrite R. cbn.
    split; [exact B|]. split; [now rewrite T2, T1, app_assoc|].
    destruct (O2 i Hi) as (Z2 & NS2 & NF2).
    split.
    + intros j [<-|Hj].
      * split; [rewrite posts_of_app; lia|].
        unfold batch_settled in *. rewrite posts_of_app, Z2, Nat.add_0_r.
        rewrite !in_app_iff. tauto.
      * assert (Hne : j <> i) by (intros ->; contradiction).
        destruct (O1 j Hne) as (Z1 & NS1 & NF1).
        destruct (P2 j Hj) as [C2 S2].
        split; [rewrite posts_of_app; lia|].
        unfold batch_settled in *. rewrite posts_of_app, Z1.
        rewrite !in_app_iff. cbn [Nat.add]. tauto.
    + intros j Hj.
      assert (Hne : j <> i) by (intros ->; apply Hj; now left).
      assert (Hn : ~ In j starts) by (intros H; apply Hj; now right).
      destruct (O1 j Hne) as (Z1 & NS1 & NF1).
      destruct (O2 j Hn) as (Z2' & NS2' & NF2').
      rewrite posts_of_app, !in_app_iff. split; [lia | tauto].
Qed.

(** One batch against the store: the first accepted request ends it as a
    success, three rejected requests end it as a failure. *)
Lemma submission_at store table_name i batch b k evs b' :
  (k < 3)%nat ->
  (forall j, (j < k)%nat -> attempt_succeeds (store (b + j)%nat) = false) ->
  attempt_succeeds (store (b + k)%nat) = true ->
  evs = rejected_attempts table_name i batch k
          ++ [Post table_name i batch; Success i] ->
  b' = (b + k + 1)%nat ->
  chunk_submission store table_name i batch b evs b'.
Proof. intros K R A -> ->. now apply submission_accepted. Qed.

Lemma retry_loop_submission store table_name i batch w :
  exists w' evs,
    retry_loop store table_name 3 0 i batch w = Some w'
    /\ trace w' = trace w ++ evs
    /\ chunk_submission store table_name i batch (sent w) evs (sent w').
Proof.
  cbn [retry_loop Nat.ltb Nat.leb Nat.add Nat.eqb].
  unfold emit, post; cbn [sent trace].
  assert (E1 : (sent w + 1)%nat = S (sent w)) by lia.
  assert (E2 : (sent w + 2)%nat = S (S (sent w))) by lia.
  destruct (attempt_succeeds (store (sent w))) eqn:A0;
    [|destruct (attempt_succeeds (store (S (sent w)))) eqn:A1;
      [|destruct (attempt_succeeds (store (S (S (sent w))))) eqn:A2]];
    eexists; eexists; (split; [reflexivity|]); cbn [trace sent];
    rewrite <- ?app_assoc; cbn [app]; (split; [reflexivity|]).
  - apply (submission_at store table_name i batch (sent w) 0);
      [lia | intros j Hj; lia | now rewrite Nat.add_0_r | reflexivity | lia].
  - apply (submission_at store table_name i batch (sent w) 1);
      [lia | | now rewrite E1 | reflexivity | lia].
    intros j Hj. replace j with 0%nat by lia. now rewrite Nat.add_0_r.
  - apply (submission_at store table_name i batch (sent w) 2);
      [lia | | now rewrite E2 | reflexivity | lia].
    intros [|[|j]] Hj; [now rewrite Nat.add_0_r | now rewrite E1 | lia].
  - replace (S (S (S (sent w)))) with (sent w + 3)%nat by lia.
    apply (submission_failed store table_name i batch (sent w)).
    intros [|[|[|j]]] Hj;
      [now rewrite Nat.add_0_r | now rewrite E1 | now rewrite E2 | lia].
Qed.

Lemma batch_loop_run store table_name cleaned_records starts w :
  exists w' evs,
    batch_loop store table_name cleaned_records starts w = Some w'
    /\ trace w' = trace w ++ evs
    /\ load_run store table_name cleaned_records starts (sent w) evs
                (sent w').
Proof.
  revert w. induction starts as [|i starts IH]; intros w.
  - exists w, []. cbn. rewrite app_nil_r.
    split; [reflexivity|]. split; [reflexivity|]. constructor.
  - destruct (retry_loop_submission store table_name i
                (slice cleaned_records i (i + batch_size)) w)
      as (w1 & evs1 & R & T1 & S1).
    destruct (IH w1) as (w2 & evs2 & B & T2 & L2).
    exists w2, (evs1 ++ evs2). cbn [batch_loop]. rewrite R. cbn.
    split; [exact B|]. split; [now rewrite T2, T1, app_assoc|].
    now apply (load_chunk _ _ _ i starts (sent w) (sent w1) (sent w2)).
Qed.

(** The batch starts are increasing, hence pairwise distinct. *)
Lemma range_from_bounds fuel start stop step x :
  In x (range_from fuel start stop step) -> (start <= x)%nat.
Proof.
  revert start. induction fuel as [|fuel IH]; intros start; [intros []|].
  cbn [range_from]. destruct (start <? stop)%nat; [|intros []].
  intros [<-|H]; [lia|]. apply IH in H. lia.
Qed.

Lemma range_from_NoDup fuel start stop step :
  (0 < step)%nat -> List.NoDup (range_from fuel start stop step).
Proof.
  intros S. revert start. induction fuel as [|fuel IH]; intros start;
    [constructor|].
  cbn [range_from]. destruct (start <? stop)%nat; [|constructor].
  constructor; [|apply IH].
  intros H. apply range_from_bounds in H. lia.
Qed.

(** The batches partition the records: with fuel for every start below
    [stop], the slices put together are the records from [start] on. *)
Lemma chunks_cover {A} (l : list A) fuel start step :
  (0 < step)%nat -> (length l - start <= fuel)%nat ->
  concat (map (fun i => slice l i (i + step))
              (range_from fuel start (length l) step))
  = skipn start l.
Proof.
  intros S. revert start. induction fuel as [|fuel IH]; intros start F.
  - cbn. symmetry. apply skipn_all2. lia.
  - cbn [range_from]. destruct (Nat.ltb_spec start (length l)) as [L|L].
    + cbn [map concat]. rewrite IH by lia. unfold slice.
      replace (start + step - start)%nat with step by lia.
      transitivity (firstn step (skipn start l)
                      ++ skipn step (skipn start l));
        [|apply firstn_skipn].
      f_equal. rewrite skipn_skipn. f_equal. lia.
    + cbn. symmetry. apply skipn_all2. lia.
Qed.

Lemma clean_records_length table_name records :
  length (clean_records table_name records) = length records.
Proof.
  unfold clean_records.
  destruct (_ || _); now rewrite ?length_map.
Qed.

End InsertFacts.

(** ** Claims about the bulk insert and the load step *)
Section LoaderClaims.
Import PyStr Pandas Database Vocabulary Specs Examples.

(** C5. [insert_data] always returns, for every store and every list of
    records. The chunks it cuts cover all records, and its requests and
    reports are those of submitting the chunks in order against the store:
    a chunk is sent until a request is accepted, at most three times; the
    first accepted request ends it as a success, three rejected requests
    end it reported as failed; and whatever the outcome, the next chunk is
    submitted, from the next request on. So every chunk is sent at least
    once and at most three times and ends either successful or, after
    three requests, failed. *)
Theorem failed_batch_does_not_stop_the_load
    (store : nat -> Response) (table_name : string)
    (records : list Record_) (w : World) :
  exists w' evs,
    insert_records store table_name records w
      = Some (w', match records with [] => RetNone | _ => RetTrue end)
    /\ trace w' = trace w ++ evs
    /\ let table := replace_char "-" "_" (lower (strip table_name)) in
       let cleaned_records := clean_records table records in
       concat (map (chunk cleaned_records) (chunk_starts cleaned_records))
         = cleaned_records
       /\ length cleaned_records = length records
       /\ load_run store table cleaned_records
                   (chunk_starts cleaned_records) (sent w) evs (sent w')
       /\ forall i, In i (chunk_starts cleaned_records) ->
            (1 <= posts_of i evs <= 3)%nat /\ batch_settled i evs.
Proof.
  unfold insert_records.
  set (tn := replace_char "-" "_" (lower (strip table_name))).
  set (cleaned := clean_records tn records).
  assert (C : concat (map (chunk cleaned) (chunk_starts cleaned)) = cleaned).
  { unfold chunk, chunk_starts, range.
    rewrite (chunks_cover cleaned (length cleaned) 0 batch_size);
      [reflexivity | unfold batch_size; lia | lia]. }
  assert (L : length cleaned = length records)
    by apply clean_records_length.
  destruct records as [|r records].
  - exists w, []. rewrite app_nil_r.
    split; [reflexivity|]. split; [reflexivity|]. split; [exact C|].
    split; [exact L|].
    assert (N : chunk_starts cleaned = []).
    { unfold chunk_starts. rewrite L. reflexivity. }
    rewrite N. split; [constructor | intros i []].
  - destruct (batch_loop_spec store tn cleaned
                (range 0 (length cleaned) batch_size) w)
      as (w' & evs & B & T & P & _).
    { apply range_from_NoDup. unfold batch_size. lia. }
    destruct (batch_loop_run store tn cleaned
                (range 0 (length cleaned) batch_size) w)
      as (w2 & evs2 & B2 & T2 & R).
    rewrite B in B2. injection B2 as <-.
    rewrite T in T2. apply app_inv_head in T2 as <-.
    exists w', evs. rewrite B. cbn.
    split; [reflexivity|]. split; [exact T|]. split; [exact C|].
    split; [exact L|]. split; [exact R | exact P].
Qed.

(** Read against the store: a chunk is reported failed only when its three
    requests were rejected, reported successful only when its last request
    was accepted and those before it rejected, and a chunk never ends the
    run. *)
Lemma chunk_submission_reads store table_name i batch b evs b' :
  chunk_submission store table_name i batch b evs b' ->
  (b' = b + posts_of i evs)%nat
  /\ (forall j, (j + 1 < posts_of i evs)%nat ->
        attempt_succeeds (store (b + j)%nat) = false)
  /\ (In (Success i) evs
      <-> attempt_succeeds (store (b + posts_of i evs - 1)%nat) = true)
  /\ (In (Failed i) evs
      <-> posts_of i evs = 3%nat
          /\ attempt_succeeds (store (b + 2)%nat) = false).
Proof.
  intros [b0 k K R A|b0 R].
  - destruct k as [|[|[|k]]]; [| | |lia];
      unfold posts_of; cbn [rejected_attempts flat_map seq app
                            List.filter is_post_of length];
      rewrite ?Nat.eqb_refl; cbn [length].
    + rewrite Nat.add_0_r in A.
      replace (b0 + 1 - 1)%nat with b0 by lia.
      split; [lia|]. split; [intros j Hj; lia|]. split.
      * split; [intros _; exact A | intros _; cbn; tauto].
      * split; [cbn; intuition discriminate | intros [H _]; discriminate H].
    + replace (b0 + 2 - 1)%nat with (b0 + 1)%nat by lia.
      split; [lia|]. split; [intros j Hj; apply R; lia|]. split.
      * split; [intros _; exact A | intros _; cbn; tauto].
      * split; [cbn; intuition discriminate | intros [H _]; discriminate H].
    + replace (b0 + 3 - 1)%nat with (b0 + 2)%nat by lia.
      split; [lia|]. split; [intros j Hj; apply R; lia|]. split.
      * split; [intros _; exact A | intros _; cbn; tauto].
      * split; [cbn; intuition discriminate | intros [_ H]; congruence].
  - unfold posts_of; cbn [rejected_attempts flat_map seq app
                          List.filter is_post_of length];
      rewrite ?Nat.eqb_refl; cbn [length].
    replace (b0 + 3 - 1)%nat with (b0 + 2)%nat by lia.
    split; [lia|]. split; [intros j Hj; apply R; lia|]. split.
    + split; [cbn; intuition discriminate|].
      intros H. rewrite (R 2%nat) in H by lia. discriminate H.
    + split; [intros _; split; [reflexivity | apply R; lia]|].
      intros _. cbn. tauto.
Qed.

(** The store of [flaky_store] rejects the three requests of the first
    chunk of sixty records; the second chunk is sent and accepted. *)
Example failed_batch_then_next :
  exists w',
    insert_records flaky_store "Loans-2024" sixty_records init
      = Some (w', RetTrue)
    /\ sent w' = 4%nat
    /\ posts_of 0 (trace w') = 3%nat /\ In (Failed 0) (trace w')
    /\ posts_of 50 (trace w') = 1%nat /\ In (Success 50) (trace w').
Proof.
  eexists. split; [vm_compute; reflexivity|]. cbn [sent trace].
  repeat split; cbn; tauto.
Qed.

(** C10. An attempt succeeds exactly when the request returns a status
    below 400; then the batch ends as a success without using a retry. A
    status of 400 or above, or a transport exception, fails the attempt,
    which uses one retry: the loop goes on with the counter one higher, or,
    when the counter reaches 3, reports the batch failed. *)
Theorem attempt_succeeds_below_400
    (store : nat -> Response) (table_name : string) (fuel retry_count i : nat)
    (batch : list Record_) (w : World) :
  (retry_count < 3)%nat ->
  (forall r, attempt_succeeds r = true
             <-> exists status_code, r = Status status_code /\ status_code < 400)
  /\ (attempt_succeeds (store (sent w)) = true ->
      retry_loop store table_name (S fuel) retry_count i batch w
      = Some (emit (Success i) (post table_name i batch w)))
  /\ (attempt_succeeds (store (sent w)) = false ->
      (retry_count + 1 < 3)%nat ->
      retry_loop store table_name (S fuel) retry_count i batch w
      = retry_loop store table_name fuel (retry_count + 1) i batch
          (emit (Retry i (retry_count + 1)) (post table_name i batch w)))
  /\ (attempt_succeeds (store (sent w)) = false ->
      (retry_count + 1)%nat = 3%nat ->
      retry_loop store table_name (S fuel) retry_count i batch w
      = Some (emit (Failed i) (post table_name i batch w))).
Proof.
  intros R. split; [|split; [|split]].
  - intros [c|]; cbn; split.
    + intros H. exists c. split; [reflexivity|].
      destruct (Z.eqb_spec c 204); [lia|].
      destruct (Z.leb_spec 400 c); [discriminate H | lia].
    + intros (c' & E & L). injection E as <-.
      destruct (Z.eqb_spec c 204); [reflexivity|].
      destruct (Z.leb_spec 400 c); [lia | reflexivity].
    + discriminate.
    + intros (c & E & _). discriminate E.
  - intros A. cbn [retry_loop].
    destruct (Nat.ltb_spec retry_count 3); [|lia]. now rewrite A.
  - intros A N. cbn [retry_loop].
    destruct (Nat.ltb_spec retry_count 3); [|lia]. rewrite A.
    destruct (Nat.eqb_spec (retry_count + 1) 3); [lia | reflexivity].
  - intros A N. cbn [retry_loop].
    destruct (Nat.ltb_spec retry_count 3); [|lia]. rewrite A.
    destruct (Nat.eqb_spec (retry_count + 1) 3); [reflexivity | lia].
Qed.

Lemma attempt_succeeds_below_400_witness :
  attempt_succeeds (Status 302) = true
  /\ retry_loop (fun _ => Status 302) "loans" 3 0 0 [] init
     = Some (emit (Success 0) (post "loans" 0 [] init)).
Proof.
  destruct (attempt_succeeds_below_400 (fun _ => Status 302) "loans" 2 0 0
              [] init) as (I & S & _).
  - lia.
  - split; [apply I; exists 302; split; [reflexivity | lia]|].
    apply S. reflexivity.
Defined.

(** C4. When the row count of the table is reported above zero, the load
    step reports the table skipped and sends nothing; it sends insert
    requests only when the reported count is zero. *)
Theorem populated_table_is_skipped
    (store : nat -> Response) (rest : RestProbe) (client : ClientProbe)
    (table_name : string) (df : DataFrame) (w : World) (n : Z) :
  record_count rest client = Some n ->
  (0 < n ->
   load_step store rest client table_name df w = Some (w, Ok (Skipped n)))
  /\ (0 <= n ->
      forall w' outcome,
        load_step store rest client table_name df w = Some (w', outcome) ->
        posts (trace w') <> posts (trace w) -> n = 0).
Proof.
  intros C. unfold load_step. rewrite C. split.
  - intros P. destruct (Z.ltb_spec 0 n); [reflexivity | lia].
  - intros N w' outcome. destruct (Z.ltb_spec 0 n) as [P|P]; [|lia].
    intros E. injection E as <- _. congruence.
Qed.

Lemma populated_table_is_skipped_witness :
  load_step flaky_store (RestResponse 200 (Count 10)) ClientRaises
            "loans_2024_03" big_int_frame init
  = Some (init, Ok (Skipped 10)).
Proof.
  apply (proj1 (populated_table_is_skipped flaky_store
                  (RestResponse 200 (Count 10)) ClientRaises
                  "loans_2024_03" big_int_frame init 10 eq_refl)).
  reflexivity.
Defined.

(** With a count of zero the rows are sent. *)
Example empty_table_is_loaded :
  exists w',
    load_step (fun _ => Status 201) (RestResponse 200 (Count 0)) ClientRaises
              "loans_2024_03" big_int_frame init
    = Some (w', Ok (Inserted true))
    /\ posts (trace w') = 1%nat.
Proof. eexists. split; [vm_compute; reflexivity | reflexivity]. Qed.

End LoaderClaims.

(** ** Further properties of the catalogue and its resolver *)
Section CatalogueExtras.
Import PyStr Catalogue Vocabulary Specs Examples.

Lemma upper_upper s : upper (upper s) = upper s.
Proof.
  unfold upper. rewrite map_chars_compose. apply map_chars_ext.
  intros [[] [] [] [] [] [] [] []]; reflexivity.
Qed.

Lemma lower_lower s : lower (lower s) = lower s.
Proof.
  unfold lower. rewrite map_chars_compose. apply map_chars_ext.
  intros [[] [] [] [] [] [] [] []]; reflexivity.
Qed.

Lemma upper_lower s : upper (lower s) = upper s.
Proof.
  unfold upper, lower. rewrite map_chars_compose. apply map_chars_ext.
  intros [[] [] [] [] [] [] [] []]; reflexivity.
Qed.

Lemma lower_upper s : lower (upper s) = lower s.
Proof.
  unfold upper, lower. rewrite map_chars_compose. apply map_chars_ext.
  intros [[] [] [] [] [] [] [] []]; reflexivity.
Qed.

Lemma keys_upper_insert m k t :
  upper k = k -> keys_upper m -> keys_upper (<[k := t]> m).
Proof.
  intros Hk Hm j. rewrite lookup_insert. case_decide; [now subst | apply Hm].
Qed.

Lemma store_row_keys_upper m row :
  keys_upper m -> keys_upper (store_row m row).
Proof.
  intros Hm. destruct row as [|r0 [|r1 [|r2 rest]]]; try exact Hm.
  unfold store_row.
  repeat match goal with
         | |- context [if ?c then _ else _] => destruct c
         end;
    repeat apply keys_upper_insert; auto using upper_upper.
Qed.

Lemma load_files_keys_upper files m :
  keys_upper m -> keys_upper (load_files files m).
Proof.
  revert m. induction files as [|file files IH]; intros m Hm; [exact Hm|].
  change (load_files (file :: files) m)
    with (load_files files (_load_column_types_from_file file m)).
  apply IH. destruct file as [[|header rows]|]; try exact Hm.
  cbn [_load_column_types_from_file]. clear IH.
  revert m Hm. induction rows as [|row rows IHr]; intros m Hm; [exact Hm|].
  cbn [fold_left]. apply IHr. now apply store_row_keys_upper.
Qed.

(** X1. Every key of the loaded catalogue is in upper case, whatever the
    description files hold. *)
Theorem catalogue_keys_are_upper_case
    (zip_specific : option (list DescFile)) (main_dir : list DescFile)
    (key : string) :
  is_Some (load_column_type_definitions zip_specific main_dir !! key) ->
  upper key = key.
Proof.
  revert key. change (keys_upper
    (load_column_type_definitions zip_specific main_dir)).
  unfold load_column_type_definitions.
  assert (L : keys_upper (load_sources zip_specific main_dir)).
  { rewrite load_sources_read. apply load_files_keys_upper.
    intros k [t Ht]. rewrite lookup_empty in Ht. discriminate Ht. }
  unfold ensure_join_fields.
  destruct (load_sources zip_specific main_dir !! "CU_NUMBER"); [|exact L].
  destruct (String.eqb _ _); [|exact L].
  repeat apply keys_upper_insert; auto.
Qed.

Lemma catalogue_keys_are_upper_case_witness : upper "ACCT-010" = "ACCT-010".
Proof.
  apply (catalogue_keys_are_upper_case None plain_source "ACCT-010").
  vm_compute. eauto.
Defined.

(** X2. The resolver reads a column name without regard to letter case:
    the name in lower case or in upper case is typed as the name itself, by
    [get_sql_type_for_column] and by the column definition of
    [create_table_from_dataframe], which also gives it the same
    identifier. *)
Theorem resolver_ignores_letter_case
    (column_type_definitions : gmap string string)
    (column_name : string) (pandas_dtype : Dtype) :
  get_sql_type_for_column column_type_definitions (lower column_name)
                          pandas_dtype
    = get_sql_type_for_column column_type_definitions column_name pandas_dtype
  /\ get_sql_type_for_column column_type_definitions (upper column_name)
                             pandas_dtype
     = get_sql_type_for_column column_type_definitions column_name
                               pandas_dtype
  /\ column_definition column_type_definitions (lower column_name)
                       pandas_dtype
     = column_definition column_type_definitions column_name pandas_dtype
  /\ column_definition column_type_definitions (upper column_name)
                       pandas_dtype
     = column_definition column_type_definitions column_name pandas_dtype.
Proof.
  assert (G : forall n,
             lower n = lower column_name ->
             get_sql_type_for_column column_type_definitions n pandas_dtype
             = get_sql_type_for_column column_type_definitions column_name
                                       pandas_dtype).
  { intros n E. unfold get_sql_type_for_column, lookup. rewrite E.
    replace (upper n) with (upper column_name); [reflexivity|].
    now rewrite <- (upper_lower n), E, upper_lower. }
  assert (C : forall n,
             lower n = lower column_name ->
             column_definition column_type_definitions n pandas_dtype
             = column_definition column_type_definitions column_name
                                 pandas_dtype).
  { intros n E. unfold column_definition, clean_ident.
    now rewrite E, (G n E). }
  repeat split; first [apply G | apply C];
    auto using lower_lower, lower_upper.
Qed.

(** X3. The join-key step changes no entry other than [CU_NUMBER],
    [CU-NUMBER] and [CUNUMBER], and running it twice is running it once. *)
Theorem join_key_step_is_local (column_types : gmap string string) :
  (forall key,
      key <> "CU_NUMBER" -> key <> "CU-NUMBER" -> key <> "CUNUMBER" ->
      ensure_join_fields column_types !! key = column_types !! key)
  /\ ensure_join_fields (ensure_join_fields column_types)
     = ensure_join_fields column_types.
Proof.
  split.
  - intros key N1 N2 N3. unfold ensure_join_fields.
    destruct (column_types !! "CU_NUMBER"); [|reflexivity].
    destruct (String.eqb _ _); [|reflexivity].
    now rewrite !lookup_insert_ne.
  - assert (F : forall (m : gmap string string) t,
               m !! "CU_NUMBER" = Some t -> String.eqb (lower t) "int" = true ->
               ensure_join_fields m
               = <["CUNUMBER" := "int"]>
                   (<["CU-NUMBER" := "int"]> (<["CU_NUMBER" := "int"]> m))).
    { intros m t E I. unfold ensure_join_fields. now rewrite E, I. }
    destruct (column_types !! "CU_NUMBER") as [t|] eqn:E.
    + destruct (String.eqb (lower t) "int") eqn:I.
      * rewrite (F column_types t E I).
        rewrite (F _ "int"); [|now rewrite !lookup_insert|reflexivity].
        apply map_eq. intros k. rewrite !lookup_insert.
        repeat case_decide; reflexivity.
      * assert (N : ensure_join_fields column_types = column_types)
          by (unfold ensure_join_fields; now rewrite E, I).
        now rewrite !N.
    + assert (N : ensure_join_fields column_types = column_types)
        by (unfold ensure_join_fields; now rewrite E).
      now rewrite !N.
Qed.

Lemma join_key_step_is_local_witness :
  ensure_join_fields {["CU_NUMBER" := "INT"; "ACCT_010" := "decimal"]}
    !! "ACCT_010"
  = ({["CU_NUMBER" := "INT"; "ACCT_010" := "decimal"]} : gmap string string)
      !! "ACCT_010".
Proof.
  apply (proj1 (join_key_step_is_local
                  {["CU_NUMBER" := "INT"; "ACCT_010" := "decimal"]}));
    discriminate.
Defined.

Lemma chars_map_chars f s : chars (map_chars f s) = map f (chars s).
Proof.
  unfold chars. induction s as [|c s IH]; [reflexivity|].
  cbn [map_chars list_ascii_of_string map]. now rewrite IH.
Qed.

Lemma length_map_chars f s :
  String.length (map_chars f s) = String.length s.
Proof.
  induction s as [|c s IH]; [reflexivity|].
  cbn [map_chars String.length]. now rewrite IH.
Qed.

(** X4. The identifier [create_table_from_dataframe] derives from a column
    name has the length of the name and consists of lower-case letters,
    digits and underscores only; deriving it again changes nothing. *)
Theorem clean_ident_is_identifier (col : string) :
  forallb lower_ident_char (chars (clean_ident col)) = true
  /\ String.length (clean_ident col) = String.length col
  /\ clean_ident (clean_ident col) = clean_ident col.
Proof.
  unfold clean_ident, lower. split; [|split].
  - rewrite map_chars_compose, chars_map_chars. apply forallb_forall.
    intros c Hc. apply in_map_iff in Hc as (d & <- & _).
    destruct d as [[] [] [] [] [] [] [] []]; reflexivity.
  - now rewrite !length_map_chars.
  - rewrite !map_chars_compose. apply map_chars_ext.
    intros [[] [] [] [] [] [] [] []]; reflexivity.
Qed.

End CatalogueExtras.

(** ** Further properties of the extract-driven resolver *)
Section ResolverExtras.
Import PyStr Pandas Processor Vocabulary Specs Examples.

Lemma clean_name_map col : clean_name col = map_chars clean_char (strip col).
Proof.
  unfold clean_name, replace_char, lower. now rewrite !map_chars_compose.
Qed.

Lemma lstrip_head_ok p s :
  match lstrip_by p s with
  | EmptyString => True
  | String c _ => p c = false
  end.
Proof.
  induction s as [|c s IH]; cbn [lstrip_by]; [exact I|].
  destruct (p c) eqn:E; [exact IH | exact E].
Qed.

Lemma rstrip_head_ok p s :
  match s with EmptyString => True | String c _ => p c = false end ->
  match rstrip_by p s with
  | EmptyString => True
  | String c _ => p c = false
  end.
Proof.
  destruct s as [|c s]; [trivial|]. intros E. cbn [rstrip_by].
  destruct (rstrip_by p s); [rewrite E|]; exact E.
Qed.

Lemma rstrip_idempotent p s :
  rstrip_by p (rstrip_by p s) = rstrip_by p s.
Proof.
  induction s as [|c s IH]; [reflexivity|]. cbn [rstrip_by].
  destruct (rstrip_by p s) as [|d r] eqn:R.
  - destruct (p c) eqn:E; [reflexivity|]. cbn [rstrip_by]. now rewrite E.
  - cbn [rstrip_by] in IH |- *. now rewrite IH.
Qed.

Lemma lstrip_map_head p g s :
  (forall c, p c = false -> p (g c) = false) ->
  match s with EmptyString => True | String c _ => p c = false end ->
  lstrip_by p (map_chars g s) = map_chars g s.
Proof.
  intros G. destruct s as [|c s]; [reflexivity|]. intros E.
  cbn [map_chars lstrip_by]. now rewrite (G c E).
Qed.

Lemma rstrip_map_fixed p g s :
  (forall c, p c = false -> p (g c) = false) ->
  rstrip_by p s = s ->
  rstrip_by p (map_chars g s) = map_chars g s.
Proof.
  intros G. induction s as [|c s IH]; [reflexivity|].
  cbn [rstrip_by map_chars].
  destruct (rstrip_by p s) as [|d r] eqn:R.
  - destruct (p c) eqn:E; [discriminate|]. intros H. injection H as <-.
    cbn [map_chars rstrip_by]. now rewrite (G c E).
  - intros H. injection H as <-. rewrite (IH eq_refl). reflexivity.
Qed.

(** A character map that keeps non-blank characters non-blank leaves a
    stripped text stripped. *)
Lemma strip_map_stripped p g s :
  (forall c, p c = false -> p (g c) = false) ->
  strip_by p (map_chars g (strip_by p s)) = map_chars g (strip_by p s).
Proof.
  intros G. unfold strip_by at 1.
  rewrite lstrip_map_head; [| exact G |].
  - apply rstrip_map_fixed; [exact G|]. apply rstrip_idempotent.
  - apply rstrip_head_ok, lstrip_head_ok.
Qed.

Lemma clean_char_keeps_non_blank c :
  is_space c = false -> is_space (clean_char c) = false.
Proof. destruct c as [[] [] [] [] [] [] [] []]; intros H; now vm_compute. Qed.

(** X5. Cleaning a column name is idempotent and leaves no upper-case
    letter, hyphen or space; so the second cleaning in [_generate_schema]
    and the key cleaning of [insert_data] leave a label cleaned by
    [_process_file] as it is. *)
Theorem clean_name_is_idempotent (col : string) :
  clean_name (clean_name col) = clean_name col
  /\ Database.clean_key (clean_name col) = clean_name col
  /\ normalized (clean_name col) = true.
Proof.
  assert (I : clean_name (clean_name col) = clean_name col).
  { rewrite !clean_name_map. unfold strip.
    rewrite (strip_map_stripped is_space clean_char col
               clean_char_keeps_non_blank).
    rewrite map_chars_compose. apply map_chars_ext.
    intros [[] [] [] [] [] [] [] []]; reflexivity. }
  split; [exact I|]. split; [exact I|].
  rewrite clean_name_map. unfold normalized.
  rewrite chars_map_chars. apply forallb_forall.
  intros c Hc. apply in_map_iff in Hc as (d & <- & _).
  destruct d as [[] [] [] [] [] [] [] []]; reflexivity.
Qed.

Lemma occurrences_app name a b :
  occurrences name (a ++ b) = (occurrences name a + occurrences name b)%nat.
Proof. unfold occurrences. now rewrite List.filter_app, length_app. Qed.

Lemma occurrences_single name x :
  occurrences name [x] = if String.eqb name x then 1%nat else 0%nat.
Proof. unfold occurrences. cbn. now destruct (String.eqb name x). Qed.

(** The loop with the names it gives: [column_index] counts the earlier
    occurrences of every cleaned name, and the k-th column receives the
    expected identifier. *)
Lemma schema_loop_names large df cols seen column_index :
  (forall c, column_index !! c
             = match occurrences c seen with O => None | S n => Some n end) ->
  (forall col, In col cols -> exists s, getitem df col = SelSeries s) ->
  exists plan,
    schema_loop large df cols column_index = Ok plan
    /\ length plan = length cols
    /\ forall k col,
         cols !! k = Some col ->
         exists s,
           getitem df col = SelSeries s
           /\ plan !! k
              = Some (expected_identifier
                        (seen ++ map clean_name (take k cols))
                        (clean_name col),
                      column_sql_type large s).
Proof.
  revert seen column_index.
  induction cols as [|col cols IH]; intros seen column_index Inv H.
  - exists []. repeat split. intros k c Hk. discriminate Hk.
  - cbn [schema_loop].
    destruct (H col (or_introl eq_refl)) as [s Hs].
    set (c0 := clean_name col).
    assert (U : exists idx,
               unique_name column_index c0
               = (expected_identifier seen c0, idx)
               /\ forall c, idx !! c
                            = match occurrences c (seen ++ [c0]) with
                              | O => None | S n => Some n end).
    { unfold unique_name, expected_identifier. rewrite (Inv c0).
      destruct (occurrences c0 seen) as [|n] eqn:O.
      - eexists. split; [reflexivity|]. intros c.
        rewrite lookup_insert, occurrences_app, occurrences_single.
        case_decide as E.
        + subst c. now rewrite O, String.eqb_refl.
        + rewrite (proj2 (String.eqb_neq c c0)) by congruence.
          rewrite Nat.add_0_r. apply Inv.
      - eexists. split; [now rewrite Nat.add_1_r|]. intros c.
        rewrite lookup_insert, occurrences_app, occurrences_single.
        case_decide as E.
        + subst c. rewrite O, String.eqb_refl.
          replace (S n + 1)%nat with (S (S n)) by lia. reflexivity.
        + rewrite (proj2 (String.eqb_neq c c0)) by congruence.
          rewrite Nat.add_0_r. apply Inv. }
    destruct U as (idx & -> & Inv'). rewrite Hs.
    destruct (IH (seen ++ [c0]) idx Inv' (fun c Hc => H c (or_intror Hc)))
      as (plan & -> & L & P).
    eexists. split; [reflexivity|]. split; [cbn; now rewrite L|].
    intros [|k] c Hk; cbn in Hk.
    + injection Hk as <-. exists s. split; [exact Hs|].
      cbn [take map]. now rewrite app_nil_r.
    + destruct (P k c Hk) as (s' & Hs' & Hp). exists s'.
      split; [exact Hs'|]. cbn [take map lookup].
      rewrite <- app_assoc in Hp. exact Hp.
Qed.

Lemma schema_columns_plan
    (df : DataFrame) (table_name : string) :
  List.NoDup (labels df) ->
  exists plan,
    schema_columns df table_name = Ok plan
    /\ length plan = length (columns df)
    /\ forall k col s,
         columns df !! k = Some (col, s) ->
         plan !! k
         = Some (expected_identifier
                   (map clean_name (take k (labels df))) (clean_name col),
                 column_sql_type (has_large_numbers table_name) s).
Proof.
  intros D. unfold schema_columns.
  destruct (schema_loop_names (has_large_numbers table_name) df (labels df)
              [] ∅) as (plan & E & L & P).
  - intros c. now rewrite lookup_empty.
  - intros col Hc. apply in_map_iff in Hc as ([c s] & <- & Hin).
    exists s. now apply getitem_unique.
  - exists plan. split; [exact E|].
    split; [rewrite L; unfold labels; apply length_map|].
    intros k col s Hk.
    destruct (P k col (labels_lookup df k col s Hk)) as (s' & Hs' & Hp).
    rewrite (getitem_unique df col s D) in Hs'.
    + injection Hs' as <-. exact Hp.
    + apply list_elem_of_In. now apply (list_elem_of_lookup_2 _ k).
Qed.

(** X6. For a frame with pairwise distinct labels [_generate_schema]
    returns one plan entry per column, in order; the k-th column gets its
    cleaned name when no earlier column cleans to the same name, and
    otherwise the cleaned name followed by an underscore and the number of
    earlier columns that do. *)
Theorem identifiers_are_suffixed_in_order
    (df : DataFrame) (table_name : string) :
  List.NoDup (labels df) ->
  exists plan,
    schema_columns df table_name = Ok plan
    /\ length plan = length (columns df)
    /\ forall k col s,
         columns df !! k = Some (col, s) ->
         plan !! k
         = Some (expected_identifier
                   (map clean_name (take k (labels df))) (clean_name col),
                 column_sql_type (has_large_numbers table_name) s).
Proof. exact (schema_columns_plan df table_name). Qed.

Lemma identifiers_are_suffixed_in_order_witness :
  exists plan,
    schema_columns case_frame "loans_2024_03" = Ok plan
    /\ plan !! 2%nat = Some ("amt_2", INTEGER).
Proof.
  destruct (identifiers_are_suffixed_in_order case_frame "loans_2024_03")
    as (plan & E & _ & P).
  - repeat constructor; cbn; intuition discriminate.
  - exists plan. split; [exact E|].
    exact (P 2%nat "AMT" (series Int64 [Some (VInt 3)]) eq_refl).
Defined.

End ResolverExtras.

(** ** Types and statement text of the extract-driven resolver *)
Section ResolverTypes.
Import PyStr Pandas Processor Vocabulary Specs Examples.

Lemma occurrences_absent x l : ~ In x l -> occurrences x l = 0%nat.
Proof.
  unfold occurrences. induction l as [|a l IH]; [reflexivity|].
  intros N. cbn [List.filter].
  destruct (String.eqb_spec x a) as [->|_]; [exfalso; apply N; now left|].
  apply IH. intros H. apply N. now right.
Qed.

Lemma NoDup_take_absent (l : list string) k x :
  List.NoDup l -> l !! k = Some x -> ~ In x (take k l).
Proof.
  revert k. induction l as [|a l IH]; intros k D Hk; [discriminate Hk|].
  inversion D as [|? ? Ha D']; subst.
  destruct k as [|k]; [intros []|]. cbn in Hk. cbn [take].
  intros [->|H].
  - apply Ha. apply list_elem_of_In. now apply (list_elem_of_lookup_2 _ k).
  - now apply (IH k D' Hk).
Qed.

(** X7. When the cleaned labels of a frame are pairwise distinct,
    [_generate_schema] returns, suffixes nothing, and its identifiers are
    the cleaned labels in order, hence pairwise distinct. *)
Theorem distinct_names_are_kept (df : DataFrame) (table_name : string) :
  List.NoDup (map clean_name (labels df)) ->
  exists plan,
    schema_columns df table_name = Ok plan
    /\ map fst plan = map clean_name (labels df)
    /\ List.NoDup (map fst plan).
Proof.
  intros D.
  destruct (schema_columns_plan df table_name
              (NoDup_map_inv _ _ D)) as (plan & E & L & P).
  exists plan. split; [exact E|].
  assert (M : map fst plan = map clean_name (labels df)).
  { apply list_eq. intros k.
    change (map fst plan) with (fst <$> plan).
    change (map clean_name (labels df)) with (clean_name <$> labels df).
    rewrite !list_lookup_fmap.
    destruct (columns df !! k) as [[col s]|] eqn:Hk.
    - rewrite (P k col s Hk), (labels_lookup df k col s Hk). cbn.
      unfold expected_identifier.
      rewrite occurrences_absent; [reflexivity|].
      rewrite <- firstn_map. apply NoDup_take_absent; [exact D|].
      change (map clean_name (labels df)) with (clean_name <$> labels df).
      now rewrite list_lookup_fmap, (labels_lookup df k col s Hk).
    - apply lookup_ge_None in Hk.
      rewrite (proj2 (lookup_ge_None plan k)) by lia.
      rewrite (proj2 (lookup_ge_None (labels df) k)); [reflexivity|].
      unfold labels. rewrite length_map. exact Hk. }
  split; [exact M | now rewrite M].
Qed.

Lemma distinct_names_are_kept_witness :
  exists plan,
    schema_columns (df plain_file) "loans_2024_03" = Ok plan
    /\ map fst plan = ["amount"; "name"].
Proof.
  destruct (distinct_names_are_kept (df plain_file) "loans_2024_03")
    as (plan & E & M & _).
  - repeat constructor; cbn; intuition discriminate.
  - exists plan. split; [exact E | exact M].
Defined.

Lemma check_int_range_values s t :
  check_int_range s = Ok t -> t = INTEGER \/ t = NUMERIC.
Proof.
  unfold check_int_range. intros H.
  destruct (0 <? _)%nat; [|injection H as <-; now left].
  destruct (series_max _) as [mx|]; [|discriminate H].
  destruct (series_min _) as [mn|]; [|discriminate H].
  cbn in H.
  destruct mx as [[hi|t1]|]; destruct mn as [[lo|t2]|]; cbn in H;
    try discriminate H; try (injection H as <-; now left).
  - destruct (2147483647 <? hi); cbn in H; [injection H as <-; now right|].
    destruct (lo <? -2147483648); injection H as <-; auto.
  - destruct (2147483647 <? hi); cbn in H; [injection H as <-; now right|].
    discriminate H.
Qed.

Lemma column_sql_type_values large s :
  inferred_type (column_sql_type large s) = true
  /\ (large = true -> column_sql_type large s <> INTEGER).
Proof.
  unfold column_sql_type. destruct large.
  - repeat case_match; split; try reflexivity; intros _; discriminate.
  - split; [|discriminate].
    repeat case_match; try reflexivity.
    match goal with
    | H : check_int_range s = Ok ?t |- _ =>
        destruct (check_int_range_values s t H) as [->| ->]; reflexivity
    end.
Qed.

(** X8. For a frame with pairwise distinct labels every column of the
    schema is typed INTEGER, NUMERIC, TIMESTAMP or TEXT, never SMALLINT or
    BIGINT; and in a table whose name contains [fs220l], [fs220d],
    [fs220e] or [fs220f] no column is typed INTEGER. *)
Theorem inferred_types_are_wide
    (df : DataFrame) (table_name : string) :
  List.NoDup (labels df) ->
  exists plan,
    schema_columns df table_name = Ok plan
    /\ Forall (fun c => inferred_type (snd c) = true) plan
    /\ (has_large_numbers table_name = true ->
        Forall (fun c => snd c <> INTEGER) plan).
Proof.
  intros D.
  destruct (schema_columns_plan df table_name D)
    as (plan & E & L & P).
  exists plan. split; [exact E|].
  assert (A : forall k c, plan !! k = Some c ->
                exists s, snd c
                          = column_sql_type (has_large_numbers table_name) s).
  { intros k c Hk.
    destruct (columns df !! k) as [[col s]|] eqn:Hc.
    - rewrite (P k col s Hc) in Hk. injection Hk as <-. eauto.
    - apply lookup_ge_None in Hc.
      rewrite (proj2 (lookup_ge_None plan k)) in Hk by lia. discriminate Hk. }
  split; [|intros Hl]; apply Forall_lookup; intros k c Hk;
    destruct (A k c Hk) as [s ->].
  - apply column_sql_type_values.
  - rewrite Hl. now apply column_sql_type_values.
Qed.

Lemma inferred_types_are_wide_witness :
  exists plan,
    schema_columns big_int_frame "fs220d_2024_03" = Ok plan
    /\ Forall (fun c => snd c <> INTEGER) plan.
Proof.
  destruct (inferred_types_are_wide big_int_frame "fs220d_2024_03")
    as (plan & E & _ & W).
  - repeat constructor. intros [].
  - exists plan. split; [exact E | now apply W].
Defined.

(** X9. Outside the large-number tables, an integer column whose values
    are missing or integers within the signed 32-bit range is typed
    INTEGER. *)
Theorem in_range_integer_column_is_integer
    (df : DataFrame) (table_name : string) (k : nat) (col : string)
    (s : Series) :
  List.NoDup (labels df) ->
  has_large_numbers table_name = false ->
  columns df !! k = Some (col, s) ->
  contains "int" (dtype_str (dtype s)) = true ->
  Forall in_int4 (values s) ->
  exists plan name,
    schema_columns df table_name = Ok plan
    /\ plan !! k = Some (name, INTEGER).
Proof.
  intros D Hl Hk Hd F.
  destruct (schema_columns_plan df table_name D)
    as (plan & E & _ & P).
  exists plan. eexists. split; [exact E|].
  rewrite (P k col s Hk), Hl. unfold column_sql_type.
  now rewrite Hd, (check_int_range_in_range s F).
Qed.

Lemma in_range_integer_column_is_integer_witness :
  exists plan name,
    schema_columns all_null_frame "loans_2024_03" = Ok plan
    /\ plan !! 0%nat = Some (name, INTEGER).
Proof.
  apply (in_range_integer_column_is_integer all_null_frame "loans_2024_03"
           0 "n" (series Int64Arrow [None; None])).
  - repeat constructor. intros [].
  - reflexivity.
  - reflexivity.
  - reflexivity.
  - repeat constructor.
Defined.

(** X10. The statement handed to table creation is always a
    CREATE TABLE IF NOT EXISTS for the given table, opening with the
    synthetic primary key and closed by a parenthesis and a semicolon,
    whether [_generate_schema] returned or raised. *)
Theorem schema_is_create_if_not_exists
    (df : DataFrame) (table_name : string) :
  exists body,
    resolve_schema df table_name
    = "CREATE TABLE IF NOT EXISTS " +:+ table_name
        +:+ " (id SERIAL PRIMARY KEY" +:+ body +:+ ");".
Proof.
  unfold resolve_schema, _generate_schema.
  destruct (schema_columns df table_name) as [plan|e]; cbn.
  - exists (", " +:+ join ", " (map column_text plan)). reflexivity.
  - rewrite simple_schema_degraded. eexists. reflexivity.
Qed.

(** The plan of a returning loop types columns of the frame. *)
Lemma schema_loop_types large df cols column_index plan :
  schema_loop large df cols column_index = Ok plan ->
  Forall (fun c => exists col s,
                     In (col, s) (columns df)
                     /\ snd c = column_sql_type large s) plan.
Proof.
  revert column_index plan.
  induction cols as [|c cols IH]; intros column_index plan H.
  - injection H as <-. constructor.
  - cbn [schema_loop] in H.
    destruct (unique_name column_index (clean_name c)) as [name idx].
    unfold getitem in H.
    destruct (List.filter (fun c0 => String.eqb (fst c0) c) (columns df))
      as [|[col s] [|c1 l]] eqn:F; try discriminate H.
    destruct (schema_loop large df cols idx) as [rest|e] eqn:R;
      [|discriminate H].
    cbn in H. injection H as <-. constructor; [|now apply (IH idx)].
    exists col, s. split; [|reflexivity].
    assert (Hin : In (col, s)
                     (List.filter (fun c0 => String.eqb (fst c0) c)
                                  (columns df)))
      by (rewrite F; now left).
    now apply filter_In in Hin as [Hin _].
Qed.

Lemma object_column_is_text large s :
  dtype s = Object -> column_sql_type large s = TEXT.
Proof.
  intros E. unfold column_sql_type. rewrite E. now destruct large.
Qed.

(** The clean-up of the text columns keeps a frame of text columns one,
    with the same labels, and such a frame has no numeric column. *)
Lemma setitem_clean_object is_branch_info df col :
  object_frame df ->
  object_frame (setitem_with (apply_clean is_branch_info) df col)
  /\ labels (setitem_with (apply_clean is_branch_info) df col) = labels df.
Proof.
  unfold object_frame, labels, setitem_with. cbn [columns]. intros F. split.
  - apply List.Forall_forall. intros c Hc.
    apply in_map_iff in Hc as (c0 & <- & H0).
    destruct (String.eqb (fst c0) col); [reflexivity|].
    apply (proj1 (List.Forall_forall _ _) F c0 H0).
  - rewrite map_map. apply map_ext. intros c0.
    now destruct (String.eqb (fst c0) col).
Qed.

Lemma clean_object_columns_object is_branch_info cols df df' :
  object_frame df ->
  clean_object_columns is_branch_info cols df = Ok df' ->
  object_frame df' /\ labels df' = labels df.
Proof.
  revert df. induction cols as [|col cols IH]; intros df F H.
  - injection H as <-. now split.
  - cbn [clean_object_columns] in H.
    destruct (getitem df col); try discriminate H.
    destruct (setitem_clean_object is_branch_info df col F) as [F' L'].
    destruct (IH _ F' H) as [F'' L'']. split; [exact F''|].
    now rewrite L''.
Qed.

Lemma object_frame_no_numbers df :
  object_frame df -> select_dtypes is_int64_or_float64 df = [].
Proof.
  unfold object_frame, select_dtypes. intros F.
  induction F as [|c l E _ IH]; [reflexivity|].
  cbn [List.filter]. rewrite E. exact IH.
Qed.

(** X11. Files whose name contains [fs220l] are read with
    [dtype='object']. For a parsed file whose columns all have dtype
    [object], the conversion to text that follows the clean-up finds no
    column to convert, every column that reaches schema generation is a
    text column under its cleaned label, and the schema handed to table
    creation types every column TEXT, in the large-number tables too. *)
Theorem object_columns_are_text
    (pf : ParsedFile) (table_name : string) (df' : DataFrame) :
  object_frame (df pf) ->
  prepare pf = Ok (table_name, df') ->
  clean_object_columns (contains "branch" (lower (file pf)))
                       (select_dtypes is_object (rename_columns (df pf)))
                       (rename_columns (df pf))
    = Ok df'
  /\ object_frame df'
  /\ labels df' = map clean_name (labels (df pf))
  /\ length (resolve_columns df' table_name) = length (columns (df pf))
  /\ Forall (fun c => snd c = TEXT) (resolve_columns df' table_name).
Proof.
  intros F. unfold prepare.
  destruct (Nat.eqb _ _); [discriminate|].
  destruct (Nat.eqb _ _); [discriminate|].
  assert (F1 : object_frame (rename_columns (df pf))).
  { unfold object_frame, rename_columns. cbn [columns].
    apply List.Forall_forall. intros c Hc.
    apply in_map_iff in Hc as (c0 & <- & H0).
    apply (proj1 (List.Forall_forall _ _) F c0 H0). }
  assert (L1 : labels (rename_columns (df pf))
               = map clean_name (labels (df pf))).
  { unfold labels, rename_columns. cbn [columns]. now rewrite !map_map. }
  destruct (clean_object_columns _ _ _) as [df2|e] eqn:C; [|discriminate].
  destruct (clean_object_columns_object _ _ _ _ F1 C) as [F2 L2].
  cbn. rewrite (object_frame_no_numbers df2 F2).
  destruct (contains "fs220l" (lower (file pf)));
    cbn [fold_left]; intros H; injection H as _ <-.
  all: split; [reflexivity|]; split; [exact F2|];
    split; [now rewrite L2|].
  all: assert (Len : length (columns df2) = length (columns (df pf)))
    by (rewrite <- (length_map fst (columns df2));
        fold (labels df2); rewrite L2, L1, length_map;
        unfold labels; apply length_map).
  all: unfold resolve_columns, schema_columns.
  all: destruct (schema_loop (has_large_numbers table_name) df2
                   (labels df2) ∅) as [plan|e] eqn:R.
  all: try (split;
            [ rewrite (schema_loop_length _ _ _ _ _ R);
              unfold labels; rewrite length_map; exact Len
            | apply (Forall_impl _ _ _ (schema_loop_types _ _ _ _ _ R));
              intros c (col & s & Hin & ->);
              apply object_column_is_text;
              apply (proj1 (List.Forall_forall _ _) F2 (col, s) Hin) ]).
  all: split;
    [ unfold simple_columns, labels; rewrite !length_map; exact Len
    | unfold simple_columns; apply List.Forall_forall;
      intros c Hc; apply in_map_iff in Hc as (n & <- & _); reflexivity ].
Qed.

Lemma object_columns_are_text_witness :
  exists df',
    prepare fs220l_file = Ok ("fs220l_2024_03", df')
    /\ has_large_numbers "fs220l_2024_03" = true
    /\ Forall (fun c => snd c = TEXT)
              (resolve_columns df' "fs220l_2024_03").
Proof.
  eexists. split; [vm_compute; reflexivity|]. split; [reflexivity|].
  eapply (object_columns_are_text fs220l_file).
  - repeat constructor.
  - vm_compute. reflexivity.
Defined.

End ResolverTypes.

(** ** File selection, period and table name *)
Section FileExtras.
Import PyStr Processor Files Vocabulary Specs Examples.

Lemma prefix_append a b : String.prefix a (a +:+ b) = true.
Proof.
  induction a as [|c a IH]; [apply prefix_empty|].
  change (String c a +:+ b) with (String c (a +:+ b)).
  cbn [String.prefix]. destruct (ascii_dec c c); [exact IH | contradiction].
Qed.

Lemma prefix_inv a s :
  String.prefix a s = true -> exists rest, s = a +:+ rest.
Proof.
  revert s. induction a as [|c a IH]; intros s H; [now exists s|].
  destruct s as [|d s]; [discriminate H|]. cbn [String.prefix] in H.
  destruct (ascii_dec c d) as [->|]; [|discriminate H].
  destruct (IH s H) as [rest ->]. now exists rest.
Qed.

Lemma contains_prefix needle hay :
  String.prefix needle hay = true -> contains needle hay = true.
Proof. intros H. destruct hay; cbn [contains]; now rewrite H. Qed.

Lemma match_date_at_sound s year month :
  match_date_at s = Some (year, month) ->
  String.length year = 4%nat /\ String.length month = 2%nat
  /\ all_digits year = true /\ all_digits month = true
  /\ String.prefix (year +:+ "-" +:+ month) s = true.
Proof.
  destruct s as [|y1 [|y2 [|y3 [|y4 [|h [|m1 [|m2 rest]]]]]]];
    try discriminate.
  cbn [match_date_at].
  destruct (is_digit y1) eqn:D1; [|discriminate].
  destruct (is_digit y2) eqn:D2; [|discriminate].
  destruct (is_digit y3) eqn:D3; [|discriminate].
  destruct (is_digit y4) eqn:D4; [|discriminate].
  destruct (Ascii.eqb_spec h "-"%char) as [->|]; [|discriminate].
  destruct (is_digit m1) eqn:D5; [|discriminate].
  destruct (is_digit m2) eqn:D6; [|discriminate].
  cbn [andb]. intros H. injection H as <- <-.
  split; [reflexivity|]. split; [reflexivity|]. split; [|split].
  - unfold all_digits, chars. cbn. now rewrite D1, D2, D3, D4.
  - unfold all_digits, chars. cbn. now rewrite D5, D6.
  - apply (prefix_append
             (String y1 (String y2 (String y3 (String y4
                (String "-" (String m1 (String m2 "")))))))
             rest).
Qed.

Lemma match_date_at_complete s year month :
  String.length year = 4%nat -> String.length month = 2%nat ->
  all_digits year = true -> all_digits month = true ->
  String.prefix (year +:+ "-" +:+ month) s = true ->
  match_date_at s = Some (year, month).
Proof.
  intros Ly Lm Dy Dm P. apply prefix_inv in P as [rest ->].
  destruct year as [|y1 [|y2 [|y3 [|y4 [|]]]]]; try discriminate Ly.
  destruct month as [|m1 [|m2 [|]]]; try discriminate Lm.
  unfold all_digits, chars in Dy, Dm. cbn in Dy, Dm.
  apply andb_true_iff in Dy as [D1 Dy]. apply andb_true_iff in Dy as [D2 Dy].
  apply andb_true_iff in Dy as [D3 Dy]. apply andb_true_iff in Dy as [D4 _].
  apply andb_true_iff in Dm as [D5 Dm]. apply andb_true_iff in Dm as [D6 _].
  change (match_date_at
            (String y1 (String y2 (String y3 (String y4
               (String "-" (String m1 (String m2 rest)))))))
          = Some (String y1 (String y2 (String y3 (String y4 ""))),
                  String m1 (String m2 ""))).
  cbn [match_date_at]. rewrite D1, D2, D3, D4, D5, D6, Ascii.eqb_refl.
  reflexivity.
Qed.

Lemma extract_date_info_sound filename year month :
  _extract_date_info filename = Some (year, month) ->
  String.length year = 4%nat /\ String.length month = 2%nat
  /\ all_digits year = true /\ all_digits month = true
  /\ contains (year +:+ "-" +:+ month) filename = true.
Proof.
  induction filename as [|c rest IH].
  - discriminate.
  - cbn [_extract_date_info].
    destruct (match_date_at (String c rest)) as [[y m]|] eqn:M.
    + intros H. injection H as -> ->.
      destruct (match_date_at_sound _ _ _ M) as (L1 & L2 & D1 & D2 & P).
      repeat split; try assumption. now apply contains_prefix.
    + intros H. destruct (IH H) as (L1 & L2 & D1 & D2 & C).
      repeat split; try assumption.
      cbn [contains]. rewrite C. apply orb_true_r.
Qed.

(** X12. [_extract_date_info] finds a period exactly when the file name
    contains four digits, a hyphen and two digits in a row: what it returns
    is such a year and month, standing in the name in that form; and when it
    returns nothing, no such year and month stand in the name. *)
Theorem extract_date_info_finds_the_period (filename : string) :
  (forall year month,
      _extract_date_info filename = Some (year, month) ->
      String.length year = 4%nat /\ String.length month = 2%nat
      /\ all_digits year = true /\ all_digits month = true
      /\ contains (year +:+ "-" +:+ month) filename = true)
  /\ (_extract_date_info filename = None ->
      forall year month,
        String.length year = 4%nat -> String.length month = 2%nat ->
        all_digits year = true -> all_digits month = true ->
        contains (year +:+ "-" +:+ month) filename = false).
Proof.
  split.
  - intros year month. apply extract_date_info_sound.
  - intros H year month Ly Lm Dy Dm.
    induction filename as [|c rest IH].
    + destruct year; [discriminate Ly | reflexivity].
    + cbn [_extract_date_info] in H.
      destruct (match_date_at (String c rest)) as [ym|] eqn:M;
        [discriminate H|].
      cbn [contains]. rewrite (IH H), orb_false_r.
      destruct (String.prefix _ _) eqn:P; [|reflexivity].
      rewrite (match_date_at_complete _ _ _ Ly Lm Dy Dm P) in M.
      discriminate M.
Qed.

Lemma extract_date_info_finds_the_period_witness :
  contains ("2024" +:+ "-" +:+ "03") "call-report-data-2024-03.zip" = true.
Proof.
  apply (proj1 (extract_date_info_finds_the_period
                  "call-report-data-2024-03.zip") "2024" "03").
  reflexivity.
Defined.

Lemma process_loop_counts files s e :
  process_loop files s e
  = ((s + length (List.filter
                    (fun f => endswith ".txt" (fst f) && snd f) files))%nat,
     (e + length (List.filter
                    (fun f => endswith ".txt" (fst f) && negb (snd f))
                    files))%nat).
Proof.
  revert s e. induction files as [|[file returns] files IH]; intros s e.
  - cbn. now rewrite !Nat.add_0_r.
  - cbn [process_loop List.filter fst snd].
    destruct (endswith ".txt" file); destruct returns; cbn [andb negb];
      rewrite IH; cbn [length]; f_equal; lia.
Qed.

Lemma filter_filter_and {A} (p q : A -> bool) l :
  List.filter q (List.filter p l) = List.filter (fun x => p x && q x) l.
Proof.
  induction l as [|x l IH]; [reflexivity|]. cbn [List.filter].
  destruct (p x); cbn [List.filter andb]; [|exact IH].
  destruct (q x); now rewrite IH.
Qed.

(** X13. In the loop of [_process_zip] every listed text file that is not
    hidden is handed to [_process_file] once, wherever it stands and
    whatever happened to the files before it: the success count is the
    number of those on which [_process_file] returns, the error count the
    number of those on which it raises; and the archive is moved exactly
    when one of them returned. *)
Theorem zip_loop_counts_every_file (listing : list (string * bool)) :
  _process_zip_counts listing
  = (length (List.filter (fun f => is_data_file (fst f) && snd f) listing),
     length (List.filter (fun f => is_data_file (fst f) && negb (snd f))
                         listing))
  /\ (zip_moved listing = true
      <-> exists file, In (file, true) listing /\ is_data_file file = true).
Proof.
  assert (C : _process_zip_counts listing
              = (length (List.filter
                           (fun f => is_data_file (fst f) && snd f) listing),
                 length (List.filter
                           (fun f => is_data_file (fst f) && negb (snd f))
                           listing))).
  { unfold _process_zip_counts. rewrite process_loop_counts.
    rewrite !filter_filter_and. cbn [Nat.add].
    unfold is_data_file. f_equal; f_equal; apply filter_ext;
      intros f; now rewrite andb_assoc. }
  split; [exact C|]. unfold zip_moved. rewrite C. cbn [fst]. split.
  - intros H. apply Nat.ltb_lt in H.
    destruct (List.filter _ listing) as [|[file r] l] eqn:F;
      [cbn in H; lia|].
    assert (I : In (file, r) (List.filter
                (fun f => is_data_file (fst f) && snd f) listing))
      by (rewrite F; now left).
    apply filter_In in I as [I1 I2]. cbn in I2.
    apply andb_true_iff in I2 as [I2 ->]. eauto.
  - intros (file & I & D). apply Nat.ltb_lt.
    assert (I' : In (file, true) (List.filter
                (fun f => is_data_file (fst f) && snd f) listing)).
    { apply filter_In. split; [exact I|]. cbn. now rewrite D. }
    destruct (List.filter _ listing); [destruct I' | cbn; lia].
Qed.

End FileExtras.

(** ** The table name through the pipeline *)
Section TableName.
Import PyStr Processor Files Vocabulary Specs Examples.

Lemma chars_append a b : chars (a +:+ b) = chars a ++ chars b.
Proof.
  unfold chars. induction a as [|c a IH]; [reflexivity|].
  change (String c a +:+ b) with (String c (a +:+ b)).
  cbn [list_ascii_of_string app]. now rewrite IH.
Qed.

Lemma map_chars_fixed h s :
  (forall c, In c (chars s) -> h c = c) -> map_chars h s = s.
Proof.
  unfold chars. induction s as [|c s IH]; intros H; [reflexivity|].
  cbn [map_chars]. rewrite (H c (or_introl eq_refl)).
  now rewrite IH by (intros d Hd; apply H; now right).
Qed.

Lemma rstrip_none p s :
  (forall c, In c (chars s) -> p c = false) -> rstrip_by p s = s.
Proof.
  unfold chars. induction s as [|c s IH]; intros H; [reflexivity|].
  cbn [rstrip_by]. rewrite IH by (intros d Hd; apply H; now right).
  destruct s; [|reflexivity]. now rewrite (H c (or_introl eq_refl)).
Qed.

Lemma rstrip_append p a b :
  b <> "" -> rstrip_by p b = b -> rstrip_by p (a +:+ b) = a +:+ b.
Proof.
  intros N R. induction a as [|c a IH]; [exact R|].
  change (String c a +:+ b) with (String c (a +:+ b)).
  cbn [rstrip_by]. rewrite IH.
  destruct (a +:+ b) eqn:E; [|reflexivity].
  destruct a; [cbn in E; contradiction | discriminate E].
Qed.

Lemma append_nonempty_r (a b : string) : b <> "" -> a +:+ b <> "".
Proof.
  intros N. destruct a as [|c a]; [exact N|].
  change (String c (a +:+ b) <> ""). discriminate.
Qed.

Lemma clean_base_map base_name :
  replace_char " " "_" (replace_char "-" "_" (lower (strip base_name)))
  = map_chars clean_char (strip base_name).
Proof.
  unfold replace_char, lower. rewrite !map_chars_compose.
  apply map_chars_ext. intros [[] [] [] [] [] [] [] []]; reflexivity.
Qed.

Lemma digit_facts c :
  is_digit c = true ->
  is_space c = false /\ normalized_char c = true
  /\ (if Ascii.eqb (lower_char c) "-"%char then "_"%char else lower_char c)
     = c.
Proof.
  destruct c as [[] [] [] [] [] [] [] []]; intros H;
    try discriminate H; repeat split.
Qed.

(** X14. For a period that [_extract_date_info] found, the table name that
    [_get_table_name] builds holds no upper-case letter, hyphen or space,
    and the cleaning that [insert_data] and [create_tables] apply to a
    table name leaves it as it is: the table named in the schema is the
    table the requests go to. *)
Theorem table_name_survives_cleaning
    (zip_file base_name year month : string) :
  _extract_date_info zip_file = Some (year, month) ->
  clean_table_name (_get_table_name base_name year month)
    = _get_table_name base_name year month
  /\ normalized (_get_table_name base_name year month) = true.
Proof.
  intros X.
  destruct (extract_date_info_sound zip_file year month X)
    as (Ly & Lm & Dy & Dm & _).
  unfold all_digits in Dy, Dm.
  assert (Fy : forall c, In c (chars year) -> is_digit c = true)
    by (apply forallb_forall; exact Dy).
  assert (Fm : forall c, In c (chars month) -> is_digit c = true)
    by (apply forallb_forall; exact Dm).
  unfold _get_table_name. rewrite clean_base_map.
  set (cb := map_chars clean_char (strip base_name)).
  assert (Hcb : forall c, In c (chars cb) -> exists d, c = clean_char d).
  { intros c Hc. unfold cb in Hc. rewrite chars_map_chars in Hc.
    apply in_map_iff in Hc as (d & <- & _). eauto. }
  assert (All : forall c,
             In c (chars (cb +:+ "_" +:+ year +:+ "_" +:+ month)) ->
             (exists d, c = clean_char d) \/ c = "_"%char
             \/ is_digit c = true).
  { intros c. rewrite !chars_append, !in_app_iff. cbn [chars
      list_ascii_of_string In].
    intros [H|[[<-|[]]|[H|[[<-|[]]|H]]]]; auto. }
  split.
  - unfold clean_table_name.
    assert (S : strip (cb +:+ "_" +:+ year +:+ "_" +:+ month)
                = cb +:+ "_" +:+ year +:+ "_" +:+ month).
    { unfold strip, strip_by.
      assert (L : lstrip_by is_space (cb +:+ "_" +:+ year +:+ "_" +:+ month)
                  = cb +:+ "_" +:+ year +:+ "_" +:+ month).
      { pose proof (rstrip_head_ok is_space _
                      (lstrip_head_ok is_space base_name)) as Hh.
        fold (strip_by is_space base_name) in Hh. fold (strip base_name) in Hh.
        unfold cb. destruct (strip base_name) as [|c s]; [reflexivity|].
        cbn [map_chars].
        change (String (clean_char c) (map_chars clean_char s) +:+ ?x)
          with (String (clean_char c) (map_chars clean_char s +:+ x)).
        cbn [lstrip_by]. now rewrite (clean_char_keeps_non_blank c Hh). }
      rewrite L.
      assert (Nm : month <> "") by (destruct month; discriminate).
      assert (N1 : "_" +:+ month <> "")
        by (change (String "_" month <> ""); discriminate).
      assert (N2 : year +:+ "_" +:+ month <> "")
        by (apply append_nonempty_r; exact N1).
      assert (N3 : "_" +:+ year +:+ "_" +:+ month <> "")
        by (change (String "_" (year +:+ "_" +:+ month) <> "");
            discriminate).
      apply (rstrip_append _ cb _ N3).
      apply (rstrip_append _ "_" _ N2).
      apply (rstrip_append _ year _ N1).
      apply (rstrip_append _ "_" _ Nm).
      apply rstrip_none. intros c Hc.
      exact (proj1 (digit_facts c (Fm c Hc))). }
    rewrite S. unfold replace_char, lower. rewrite map_chars_compose.
    apply map_chars_fixed. intros c Hc.
    destruct (All c Hc) as [[d ->]|[->|Hd]].
    + destruct d as [[] [] [] [] [] [] [] []]; reflexivity.
    + reflexivity.
    + exact (proj2 (proj2 (digit_facts c Hd))).
  - unfold normalized. apply forallb_forall. intros c Hc.
    destruct (All c Hc) as [[d ->]|[->|Hd]].
    + destruct d as [[] [] [] [] [] [] [] []]; reflexivity.
    + reflexivity.
    + exact (proj1 (proj2 (digit_facts c Hd))).
Qed.

Lemma table_name_survives_cleaning_witness :
  clean_table_name (_get_table_name " FOICU-Info " "2024" "03")
  = _get_table_name " FOICU-Info " "2024" "03".
Proof.
  apply (proj1 (table_name_survives_cleaning "call-report-data-2024-03.zip"
                  " FOICU-Info " "2024" "03" eq_refl)).
Defined.

End TableName.

(** ** Further properties of the bulk insert *)
Section InsertExtras.
Import PyStr Pandas Database Vocabulary Specs Examples.

Lemma posts_app (a b : list Event) :
  posts (a ++ b) = (posts a + posts b)%nat.
Proof. unfold posts. now rewrite List.filter_app, length_app. Qed.

Lemma range_from_lt fuel start stop step x :
  In x (range_from fuel start stop step) -> (x < stop)%nat.
Proof.
  revert start. induction fuel as [|fuel IH]; intros start; [intros []|].
  cbn [range_from]. destruct (Nat.ltb_spec start stop) as [L|L];
    [|intros []].
  intros [<-|H]; [exact L | now apply (IH _ H)].
Qed.

(** With fuel for every start below [stop], the range holds the numbers
    from [start] below [stop] that are [start] plus a multiple of the
    step. *)
Lemma range_from_spec fuel start stop step x :
  (0 < step)%nat -> (stop - start <= fuel)%nat ->
  In x (range_from fuel start stop step)
  <-> (start <= x < stop)%nat /\ ((x - start) mod step = 0)%nat.
Proof.
  intros S. revert start. induction fuel as [|fuel IH]; intros start F.
  - cbn. split; [intros [] | lia].
  - cbn [range_from]. destruct (Nat.ltb_spec start stop) as [L|L].
    + cbn [In]. rewrite (IH (start + step)%nat) by lia. split.
      * intros [<-|[B M]].
        -- split; [lia|]. rewrite Nat.sub_diag. apply Nat.Div0.mod_0_l.
        -- split; [lia|].
           replace (x - start)%nat with (x - (start + step) + 1 * step)%nat
             by lia.
           now rewrite Nat.Div0.mod_add.
      * intros [B M].
        destruct (Nat.eq_dec x start) as [->|N]; [now left|]. right.
        assert (G : (step <= x - start)%nat).
        { destruct (Nat.lt_ge_cases (x - start) step) as [Lt|Ge];
            [|exact Ge].
          rewrite (Nat.mod_small _ _ Lt) in M. lia. }
        split; [lia|].
        replace (x - start)%nat with (x - (start + step) + 1 * step)%nat
          in M by lia.
        now rewrite Nat.Div0.mod_add in M.
    + split; [intros [] | lia].
Qed.

Lemma chunk_starts_spec (cleaned_records : list Record_) (i : nat) :
  In i (chunk_starts cleaned_records)
  <-> (i < length cleaned_records)%nat /\ (i mod 50 = 0)%nat.
Proof.
  unfold chunk_starts, range, batch_size.
  rewrite range_from_spec by lia. rewrite Nat.sub_0_r. split.
  - intros [B M]. split; [lia | exact M].
  - intros [B M]. split; [lia | exact M].
Qed.

Lemma chunk_length (cleaned_records : list Record_) (i : nat) :
  In i (chunk_starts cleaned_records) ->
  length (chunk cleaned_records i) = Nat.min 50 (length cleaned_records - i)
  /\ (1 <= length (chunk cleaned_records i) <= 50)%nat.
Proof.
  intros H. apply chunk_starts_spec in H as [B _].
  unfold chunk, slice, batch_size.
  replace (i + 50 - i)%nat with 50%nat by lia.
  rewrite length_firstn, length_skipn. split; lia.
Qed.

(** X15. The chunks of [insert_data] start at the multiples of 50 below the
    number of records; a chunk holds the records from its start up to 50
    further, so all chunks hold 50 records except the last, which holds the
    rest. *)
Theorem chunks_are_runs_of_fifty (cleaned_records : list Record_) (i : nat) :
  (In i (chunk_starts cleaned_records)
   <-> (i < length cleaned_records)%nat /\ (i mod 50 = 0)%nat)
  /\ (In i (chunk_starts cleaned_records) ->
      length (chunk cleaned_records i)
      = Nat.min 50 (length cleaned_records - i)
      /\ (1 <= length (chunk cleaned_records i) <= 50)%nat).
Proof.
  split; [apply chunk_starts_spec | apply chunk_length].
Qed.

Lemma chunks_are_runs_of_fifty_witness :
  length (chunk sixty_records 50) = Nat.min 50 (length sixty_records - 50).
Proof.
  apply (proj2 (chunks_are_runs_of_fifty sixty_records 50)).
  apply (proj1 (chunks_are_runs_of_fifty sixty_records 50)).
  split; [cbn; lia | reflexivity].
Defined.

(** One batch, with its requests: between one and three, counted in
    [sent], each carrying the batch. *)
Lemma retry_loop_requests store table_name i batch w :
  exists w' evs,
    retry_loop store table_name 3 0 i batch w = Some w'
    /\ trace w' = trace w ++ evs
    /\ sent w' = (sent w + posts evs)%nat
    /\ (1 <= posts evs <= 3)%nat
    /\ forall e, In e evs -> is_post e = true ->
                 e = Post table_name i batch.
Proof.
  cbn [retry_loop Nat.ltb Nat.leb Nat.add Nat.eqb].
  unfold emit, post; cbn [sent trace].
  destruct (attempt_succeeds (store (sent w)));
    [|destruct (attempt_succeeds (store (S (sent w))));
      [|destruct (attempt_succeeds (store (S (S (sent w)))))]];
    eexists; eexists; (split; [reflexivity|]); cbn [trace sent];
    rewrite <- ?app_assoc; cbn [app];
    (split; [reflexivity|]);
    unfold posts; cbn [List.filter is_post length];
    (split; [lia|]); (split; [lia|]);
    intros e He Hp; cbn [In] in He;
    repeat (destruct He as [<-|He]; [first [reflexivity | discriminate Hp]|]);
    destruct He.
Qed.

Lemma batch_loop_requests store table_name cleaned_records starts w :
  exists w' evs,
    batch_loop store table_name cleaned_records starts w = Some w'
    /\ trace w' = trace w ++ evs
    /\ sent w' = (sent w + posts evs)%nat
    /\ (length starts <= posts evs <= 3 * length starts)%nat
    /\ forall e, In e evs -> is_post e = true ->
         exists i, In i starts
                   /\ e = Post table_name i
                            (slice cleaned_records i (i + batch_size)).
Proof.
  revert w. induction starts as [|i starts IH]; intros w.
  - exists w, []. cbn. rewrite app_nil_r.
    repeat split; try lia; intros e [].
  - destruct (retry_loop_requests store table_name i
                (slice cleaned_records i (i + batch_size)) w)
      as (w1 & evs1 & R & T1 & S1 & C1 & P1).
    destruct (IH w1) as (w2 & evs2 & B & T2 & S2 & C2 & P2).
    exists w2, (evs1 ++ evs2). cbn [batch_loop]. rewrite R. cbn.
    split; [exact B|]. split; [now rewrite T2, T1, app_assoc|].
    rewrite posts_app. split; [lia|]. split; [cbn [length]; lia|].
    intros e He Hp. apply in_app_or in He as [He|He].
    + exists i. split; [now left | now apply P1].
    + destruct (P2 e He Hp) as (j & Hj & ->). exists j.
      split; [now right | reflexivity].
Qed.

(** X16. Every POST request of [insert_data] goes to the cleaned table
    name and carries one chunk of the cleaned records, never an empty list
    and never more than 50 records. *)
Theorem every_request_carries_a_chunk
    (store : nat -> Response) (table_name : string)
    (records : list Record_) (w : World) :
  exists w' ret evs,
    insert_records store table_name records w = Some (w', ret)
    /\ trace w' = trace w ++ evs
    /\ forall name i batch,
         In (Post name i batch) evs ->
         name = clean_table_name table_name
         /\ batch = chunk (clean_records (clean_table_name table_name)
                                         records) i
         /\ (1 <= length batch <= 50)%nat.
Proof.
  unfold insert_records. fold (clean_table_name table_name).
  set (tn := clean_table_name table_name).
  set (cleaned := clean_records tn records).
  destruct records as [|r records].
  - exists w, RetNone, []. rewrite app_nil_r.
    split; [reflexivity|]. split; [reflexivity|]. intros ? ? ? [].
  - destruct (batch_loop_requests store tn cleaned
                (range 0 (length cleaned) batch_size) w)
      as (w' & evs & B & T & _ & _ & P).
    exists w', RetTrue, evs. rewrite B. cbn.
    split; [reflexivity|]. split; [exact T|].
    intros name i batch Hin.
    destruct (P _ Hin eq_refl) as (j & Hj & E). injection E as -> -> ->.
    split; [reflexivity|]. split; [reflexivity|].
    now apply (chunk_length cleaned j).
Qed.

(** X17. [insert_data] sends every chunk at least once and at most three
    times, whatever the store answers, and sends nothing else: the requests
    of a run are those of its chunks, between one and three for each. *)
Theorem request_count_is_bounded
    (store : nat -> Response) (table_name : string)
    (records : list Record_) (w : World) :
  exists w' ret evs,
    insert_records store table_name records w = Some (w', ret)
    /\ trace w' = trace w ++ evs
    /\ sent w' = (sent w + posts evs)%nat
    /\ let chunks :=
         chunk_starts
           (clean_records (clean_table_name table_name) records) in
       (forall i, In i chunks -> (1 <= posts_of i evs <= 3)%nat)
       /\ (forall i, ~ In i chunks -> posts_of i evs = 0%nat)
       /\ (length chunks <= posts evs <= 3 * length chunks)%nat
       /\ (sent w + length chunks <= sent w'
           <= sent w + 3 * length chunks)%nat.
Proof.
  unfold insert_records. fold (clean_table_name table_name).
  set (tn := clean_table_name table_name).
  set (cleaned := clean_records tn records).
  destruct records as [|r records].
  - exists w, RetNone, []. rewrite app_nil_r.
    split; [reflexivity|]. split; [reflexivity|].
    split; [cbn; lia|]. cbn zeta.
    assert (N : chunk_starts cleaned = []).
    { unfold chunk_starts, cleaned. rewrite clean_records_length.
      reflexivity. }
    rewrite N. cbn. repeat split; try lia; intros i [].
  - destruct (batch_loop_requests store tn cleaned
                (range 0 (length cleaned) batch_size) w)
      as (w' & evs & B & T & S & C & _).
    destruct (batch_loop_spec store tn cleaned
                (range 0 (length cleaned) batch_size) w)
      as (w2 & evs2 & B2 & T2 & P & O).
    { apply range_from_NoDup. unfold batch_size. lia. }
    rewrite B in B2. injection B2 as <-.
    rewrite T in T2. apply app_inv_head in T2 as <-.
    exists w', RetTrue, evs. rewrite B. cbn.
    split; [reflexivity|]. split; [exact T|]. split; [exact S|].
    unfold chunk_starts. split; [intros i Hi; apply (P i Hi)|].
    split; [intros i Hi; apply (O i Hi)|]. split; lia.
Qed.

Lemma batch_loop_accepted store table_name cleaned_records starts w :
  (forall k, attempt_succeeds (store k) = true) ->
  batch_loop store table_name cleaned_records starts w
  = Some {| sent := sent w + length starts;
            trace := trace w
                     ++ flat_map (accepted_events table_name cleaned_records)
                                 starts |}.
Proof.
  intros A. revert w. induction starts as [|i starts IH]; intros w.
  - cbn. rewrite Nat.add_0_r, app_nil_r. now destruct w.
  - cbn [batch_loop retry_loop Nat.ltb Nat.leb]. rewrite A. cbn.
    rewrite IH. unfold emit, post, accepted_events. cbn [sent trace].
    f_equal. f_equal; [lia|]. now rewrite <- !app_assoc.
Qed.

Lemma batch_loop_rejected store table_name cleaned_records starts w :
  (forall k, attempt_succeeds (store k) = false) ->
  batch_loop store table_name cleaned_records starts w
  = Some {| sent := sent w + 3 * length starts;
            trace := trace w
                     ++ flat_map (rejected_events table_name cleaned_records)
                                 starts |}.
Proof.
  intros A. revert w. induction starts as [|i starts IH]; intros w.
  - cbn. rewrite Nat.add_0_r, app_nil_r. now destruct w.
  - cbn [batch_loop retry_loop Nat.ltb Nat.leb Nat.add Nat.eqb].
    rewrite !A. cbn.
    rewrite IH. unfold emit, post, rejected_events. cbn [sent trace].
    f_equal. f_equal; [cbn [length]; lia|]. now rewrite <- !app_assoc.
Qed.

(** X18. When the store accepts every request, [insert_data] sends each
    chunk once, in order, reports each successful and returns [True]. *)
Theorem accepting_store_gets_each_chunk_once
    (store : nat -> Response) (table_name : string)
    (records : list Record_) (w : World) :
  (forall k, attempt_succeeds (store k) = true) ->
  records <> [] ->
  let cleaned_records :=
    clean_records (clean_table_name table_name) records in
  insert_records store table_name records w
  = Some ({| sent := sent w + length (chunk_starts cleaned_records);
             trace := trace w
                      ++ flat_map (accepted_events
                                     (clean_table_name table_name)
                                     cleaned_records)
                                  (chunk_starts cleaned_records) |},
          RetTrue).
Proof.
  intros A N. cbn zeta. unfold insert_records.
  fold (clean_table_name table_name).
  destruct records as [|r records]; [contradiction|].
  now rewrite (batch_loop_accepted _ _ _ _ _ A).
Qed.

Lemma accepting_store_gets_each_chunk_once_witness :
  exists w',
    insert_records (fun _ => Status 201) "Loans-2024" sixty_records init
      = Some (w', RetTrue)
    /\ sent w' = 2%nat.
Proof.
  eexists. split.
  - apply (accepting_store_gets_each_chunk_once (fun _ => Status 201)
             "Loans-2024" sixty_records init);
      [reflexivity | discriminate].
  - reflexivity.
Defined.

(** X19. When the store rejects every request, [insert_data] sends each
    chunk three times, reports each failed, and still returns [True]; the
    load step of [_process_file] then takes the insertion as complete. *)
Theorem rejecting_store_still_returns_true
    (store : nat -> Response) (table_name : string)
    (records : list Record_) (w : World) :
  (forall k, attempt_succeeds (store k) = false) ->
  records <> [] ->
  let cleaned_records :=
    clean_records (clean_table_name table_name) records in
  insert_records store table_name records w
  = Some ({| sent := sent w + 3 * length (chunk_starts cleaned_records);
             trace := trace w
                      ++ flat_map (rejected_events
                                     (clean_table_name table_name)
                                     cleaned_records)
                                  (chunk_starts cleaned_records) |},
          RetTrue)
  /\ forall df,
       to_dict_records df = records ->
       exists w',
         load_step store (RestResponse 200 (Count 0)) ClientRaises
                   table_name df w
         = Some (w', Ok (Inserted true)).
Proof.
  intros A N. cbn zeta.
  assert (I : insert_records store table_name records w
              = Some ({| sent := sent w + 3 * length
                           (chunk_starts (clean_records
                              (clean_table_name table_name) records));
                         trace := trace w
                           ++ flat_map (rejected_events
                                (clean_table_name table_name)
                                (clean_records (clean_table_name table_name)
                                               records))
                              (chunk_starts (clean_records
                                 (clean_table_name table_name) records)) |},
                      RetTrue)).
  { unfold insert_records. fold (clean_table_name table_name).
    destruct records as [|r records]; [contradiction|].
    now rewrite (batch_loop_rejected _ _ _ _ _ A). }
  split; [exact I|]. intros df E.
  unfold load_step, insert_data. cbn [record_count Z.eqb Z.ltb Z.compare].
  rewrite E, I. cbn. eauto.
Qed.

Lemma rejecting_store_still_returns_true_witness :
  exists w',
    insert_records (fun _ => Status 500) "Loans-2024" sixty_records init
      = Some (w', RetTrue)
    /\ sent w' = 6%nat.
Proof.
  eexists. split.
  - apply (proj1 (rejecting_store_still_returns_true (fun _ => Status 500)
                    "Loans-2024" sixty_records init (fun _ => eq_refl)
                    ltac:(discriminate))).
  - reflexivity.
Defined.

End InsertExtras.

(** ** The single-request loader *)
Section TableInsertExtras.
Import PyStr Pandas Database TableInsert Vocabulary Specs Examples.

(** X20. The request loop of [insert_dataframe] always ends: it sends all
    records in one request to the table name as given, and goes on to the
    next request only after one that was not answered 200, 201 or 204, at
    most three times. It returns [True] exactly when its last request was
    answered so, and then nothing follows the report of success; it returns
    [False] after three requests, with a final error line. *)
Theorem insert_dataframe_tries_three_times
    (store : nat -> Response) (table_name : string)
    (records : list Record_) (w : World) :
  exists w' success evs,
    insert_dataframe_records store table_name records w = Some (w', success)
    /\ trace w' = trace w ++ evs
    /\ sent w' = (sent w + posts evs)%nat
    /\ (1 <= posts evs <= 3)%nat
    /\ (forall e, In e evs -> is_post e = true ->
                  e = Post table_name 0 records)
    /\ (forall j, (j + 1 < posts evs)%nat ->
                  accepted (store (sent w + j)%nat) = false)
    /\ success = accepted (store (sent w + posts evs - 1)%nat)
    /\ (success = true
        <-> exists k, (k < 3)%nat /\ accepted (store (sent w + k)%nat) = true)
    /\ (success = true ->
        exists k,
          evs = flat_map (fun j => [Post table_name 0 records;
                                    Retry 0 (j + 2)]) (seq 0 k)
                  ++ [Post table_name 0 records; Success 0])
    /\ (success = false ->
        evs = [Post table_name 0 records; Retry 0 2;
               Post table_name 0 records; Retry 0 3;
               Post table_name 0 records; Failed 0]).
Proof.
  unfold insert_dataframe_records.
  cbn [insert_loop max_retries Nat.ltb Nat.leb Nat.add].
  unfold emit, post; cbn [sent trace].
  assert (E1 : (sent w + 1)%nat = S (sent w)) by lia.
  assert (E2 : (sent w + 2)%nat = S (S (sent w))) by lia.
  destruct (accepted (store (sent w))) eqn:A0;
    [|destruct (accepted (store (S (sent w)))) eqn:A1;
      [|destruct (accepted (store (S (S (sent w))))) eqn:A2]];
    eexists; eexists; eexists; (split; [reflexivity|]); cbn [trace sent];
    rewrite <- ?app_assoc; cbn [app];
    (split; [reflexivity|]);
    unfold posts; cbn [List.filter is_post length];
    (split; [lia|]); (split; [lia|]);
    (split;
     [ intros e He Hp; cbn [In] in He;
       repeat (destruct He as [<-|He];
               [first [reflexivity | discriminate Hp]|]);
       destruct He |]).
  - replace (sent w + 1 - 1)%nat with (sent w) by lia.
    split; [intros j Hj; lia|]. split; [now rewrite A0|]. split; [|split].
    + split; [intros _|reflexivity]. exists 0%nat.
      rewrite Nat.add_0_r. split; [lia | exact A0].
    + intros _. exists 0%nat. reflexivity.
    + discriminate.
  - replace (sent w + 2 - 1)%nat with (S (sent w)) by lia.
    split; [|split; [now rewrite A1|split; [|split]]].
    + intros j Hj. replace j with 0%nat by lia. now rewrite Nat.add_0_r.
    + split; [intros _|reflexivity]. exists 1%nat.
      rewrite E1. split; [lia | exact A1].
    + intros _. exists 1%nat. reflexivity.
    + discriminate.
  - replace (sent w + 3 - 1)%nat with (S (S (sent w))) by lia.
    split; [|split; [now rewrite A2|split; [|split]]].
    + intros [|[|j]] Hj;
        [now rewrite Nat.add_0_r | now rewrite E1 | lia].
    + split; [intros _|reflexivity]. exists 2%nat.
      rewrite E2. split; [lia | exact A2].
    + intros _. exists 2%nat. reflexivity.
    + discriminate.
  - replace (sent w + 3 - 1)%nat with (S (S (sent w))) by lia.
    split; [|split; [now rewrite A2|split; [|split]]].
    + intros [|[|j]] Hj;
        [now rewrite Nat.add_0_r | now rewrite E1 | lia].
    + split; [discriminate|]. intros (k & Hk & A).
      destruct k as [|[|[|k]]]; [| | |lia].
      * rewrite Nat.add_0_r in A. congruence.
      * rewrite E1 in A. congruence.
      * rewrite E2 in A. congruence.
    + discriminate.
    + intros _. reflexivity.
Qed.

(** X21. The two loaders judge an answer differently: whatever
    [insert_dataframe] takes for a success, [insert_data] does too, but a
    status below 400 other than 200, 201 and 204 is a success for
    [insert_data] and a failure for [insert_dataframe], which on a store
    that always answers so gives up after three requests while
    [insert_data] sends each chunk once. *)
Theorem loaders_disagree_below_400
    (table_name : string) (records : list Record_) (w : World)
    (status_code : Z) :
  status_code < 400 ->
  status_code <> 200 -> status_code <> 201 -> status_code <> 204 ->
  (forall r, accepted r = true -> attempt_succeeds r = true)
  /\ attempt_succeeds (Status status_code) = true
  /\ accepted (Status status_code) = false
  /\ (exists w',
         insert_dataframe_records (fun _ => Status status_code)
                                  table_name records w
         = Some (w', false)
         /\ sent w' = (sent w + 3)%nat)
  /\ (records <> [] ->
      exists w',
        insert_records (fun _ => Status status_code) table_name records w
        = Some (w', RetTrue)
        /\ sent w'
           = (sent w
              + length (chunk_starts
                          (clean_records (clean_table_name table_name)
                                         records)))%nat).
Proof.
  intros L N0 N1 N4.
  assert (S : attempt_succeeds (Status status_code) = true).
  { cbn. destruct (Z.eqb_spec status_code 204); [reflexivity|].
    destruct (Z.leb_spec 400 status_code); [lia | reflexivity]. }
  assert (A : accepted (Status status_code) = false).
  { cbn. destruct (Z.eqb_spec status_code 200); [contradiction|].
    destruct (Z.eqb_spec status_code 201); [contradiction|].
    destruct (Z.eqb_spec status_code 204); [contradiction | reflexivity]. }
  split; [|split; [exact S|split; [exact A|split]]].
  - intros [c|]; cbn; [|discriminate]. intros H.
    destruct (Z.eqb_spec c 204); [reflexivity|].
    destruct (Z.eqb_spec c 200); [subst; reflexivity|].
    destruct (Z.eqb_spec c 201); [subst; reflexivity | discriminate H].
  - unfold insert_dataframe_records.
    cbn [insert_loop max_retries Nat.ltb Nat.leb Nat.add]. rewrite A.
    eexists. split; [reflexivity|]. cbn. lia.
  - intros N. unfold insert_records. fold (clean_table_name table_name).
    destruct records as [|r records]; [contradiction|].
    rewrite (batch_loop_accepted _ _ _ _ _ (fun _ => S)).
    eexists. split; reflexivity.
Qed.

Lemma loaders_disagree_below_400_witness :
  attempt_succeeds (Status 302) = true /\ accepted (Status 302) = false.
Proof.
  destruct (loaders_disagree_below_400 "loans" sixty_records init 302)
    as (_ & S & A & _); [lia | lia | lia | lia |].
  split; [exact S | exact A].
Defined.

End TableInsertExtras.
